(** * The payment-management router

    A shallow embedding of [src/server/api/routers/payment-management.ts]:
    the tRPC procedures of [paymentManagementRouter] and the exported helper
    [hasWebhook], with the properties the specification states about them.

    How the program is modelled.

    - A handler is a computation in a state-and-exception monad [M] over a
      [World]: the rows of the relational store ([ctx.db]), the state of the
      payment provider, and the trace of every effect the handler performed
      (SDK set-up, console output, provider API calls, store queries), oldest
      first.  [throw new Error(msg)] is the [Throw msg] outcome.
    - The payment provider is reached through the
      [@lemonsqueezy/lemonsqueezy.js] SDK, which is no part of the repository:
      the provider behind it is the interface [Provider], a state machine
      the theorems quantify over.  An SDK function first checks its required
      parameters and throws when one is falsy, before any request is sent;
      a request is answered with a response object whose [data] may be
      absent, and failures of the request are reported there (and through
      the [onError] callback the handlers install).
    - A table of the store is the list of its rows, in insertion order.  The
      Prisma operations used by the router are written out on these lists:
      [findUnique] is the row with the given unique key, [upsert] updates
      that row in place or appends a new one, [create] appends unless the
      unique key is taken.  [findFirst] is called without [orderBy], so which
      of the matching rows comes back is the database's choice: it is left to
      an [Engine], which the theorems quantify over.  Connection failures of
      the store are outside the model.
    - A JavaScript [Date] is modelled by the local calendar fields its setters
      act on, the time of day collapsed into milliseconds since midnight.
    - [buttonClicks] and the [amount] of [spendCredits] are integers ([Z]). *)

From Stdlib Require Import String ZArith List Bool Lia Permutation DecimalString.
Import ListNotations.
Open Scope string_scope.
Open Scope Z_scope.

Set Implicit Arguments.

(** ** JavaScript values *)

(** [!x] for a value that is a string or [undefined]: the falsy ones are
    [undefined] and the empty string. *)
Definition truthy (x : option string) : bool :=
  match x with
  | Some s => negb (String.eqb s "")
  | None => false
  end.

(** [`${x}`] inside a template literal. *)
Definition interpolate (x : option string) : string :=
  match x with
  | Some s => s
  | None => "undefined"
  end.

(** [String(n)] for an integral number. *)
Definition String_ (n : Z) : string := NilZero.string_of_int (Z.to_int n).

(** [x ?? d]. *)
Definition nullish {A : Type} (x : option A) (d : A) : A :=
  match x with
  | Some a => a
  | None => d
  end.

(** ** Dates *)

Record JsDate : Type := mkDate {
  year : Z;
  month : Z;
  day : Z;
  msOfDay : Z
}.

(** [d.setHours(0, 0, 0, 0)] *)
Definition setHours0 (d : JsDate) : JsDate :=
  mkDate (year d) (month d) (day d) 0.

(** [d.setDate(1)] *)
Definition setDate1 (d : JsDate) : JsDate :=
  mkDate (year d) (month d) 1 (msOfDay d).

Definition date_eqb (a b : JsDate) : bool :=
  (year a =? year b) && (month a =? month b) && (day a =? day b)
  && (msOfDay a =? msOfDay b).

(** [a >= b] on dates (Prisma's [gte]): the calendar fields compared in
    order. *)
Definition date_gte (a b : JsDate) : bool :=
  if year a =? year b then
    if month a =? month b then
      if day a =? day b then msOfDay b <=? msOfDay a
      else day b <? day a
    else month b <? month a
  else year b <? year a.


(** ** Configuration: [env] of [~/env.mjs] and the one direct read of
    [process.env] *)

Record Env : Type := mkEnv {
  LEMON_SQUEEZY_API_KEY : option string;
  LEMON_SQUEEZY_WEBHOOK_URL : option string;
  LEMON_SQUEEZY_STORE_ID : option string;
  LEMON_SQUEEZY_WEBHOOK_SECRET : option string;
  NEXT_PUBLIC_DEPLOYMENT_URL : option string;
  (** [process.env.LEMONSQUEEZY_STORE_ID], read by [hasWebhook] *)
  LEMONSQUEEZY_STORE_ID : option string
}.

(** ** The session *)

Record User : Type := mkUser {
  id : string;
  email : option string;
  role : string
}.

(** ** Rows of the store *)

Record FeatureUsage : Type := mkUsage {
  userId : string;
  date : JsDate;
  buttonClicks : Z
}.

Record Plan : Type := mkPlan {
  lemonSqueezyVariantId : string;
  name : string
}.

Record LemonSqueezySubscription : Type := mkSubscription {
  sub_userId : string;
  variantId : string
}.

Record OneTimePurchase : Type := mkPurchase {
  otp_userId : string
}.

Record Db : Type := mkDb {
  featureUsage : list FeatureUsage;
  plan : list Plan;
  lemonSqueezySubscription : list LemonSqueezySubscription;
  oneTimePurchase : list OneTimePurchase
}.

(** ** Entities of the provider *)

Record Webhook : Type := mkWebhook {
  wh_id : string;
  wh_store_id : string;
  url : string;
  test_mode : bool
}.

Record Variant : Type := mkVariant {
  v_id : string;
  (** [attributes.product_id], a number *)
  product_id : Z;
  v_name : string;
  status : string
}.

Record Product : Type := mkProduct {
  p_id : string;
  p_name : string
}.

Record Checkout : Type := mkCheckout {
  checkout_url : string
}.

(** An SDK answer: [response.data] is the JSON:API document, or absent when
    the call failed, and the document's own [data] is the payload. *)
Record Document (A : Type) : Type := mkDocument {
  doc_data : A
}.

Record Response (A : Type) : Type := mkResponse {
  statusCode : option Z;
  error : option string;
  data : option (Document A)
}.

(** [response.data?.data] *)
Definition payload {A : Type} (r : Response A) : option A :=
  option_map (@doc_data A) (data r).

(** Arguments of [createWebhook] and [createCheckout]. *)
Record NewWebhook : Type := mkNewWebhook {
  secret : option string;
  nw_url : string;
  testMode : bool;
  events : list string
}.

Record NewCheckout : Type := mkNewCheckout {
  co_email : string;
  userIdInDatabase : option string;
  redirectUrl : string;
  embed : option bool
}.

(** ** Effects *)

(** The calls of the SDK that reach the provider over the network. *)
Inductive ApiCall : Type :=
| ListWebhooks (storeId : option string)
| CreateWebhook (storeId : string) (webhook : NewWebhook)
| GetProduct (productId : string)
| GetVariant (variant : string)
| ListVariants (productId : option string)
| ListProducts
| CreateCheckout (storeId : string) (variant : string) (checkout : NewCheckout).

(** The queries sent to the store. *)
Inductive Query : Type :=
| SubscriptionFindFirst (user : string)
| PlanFindFirst (variant : option string)
| PlanFindUnique (variant : string)
| PlanFindMany
| PlanCreate (row : Plan)
| FeatureUsageUpsert (user : string) (day : JsDate) (amount : Z)
| FeatureUsageFindFirst (user : string) (since : JsDate)
| FeatureUsageFindMany (user : string) (since : JsDate)
| OneTimePurchaseFindMany (user : string).

Inductive Event : Type :=
| Setup (apiKey : option string)
| ConsoleLog (user : option User) (redirect : string) (variant : string)
| Api (call : ApiCall)
| Store (query : Query).

Definition is_api (e : Event) : bool :=
  match e with Api _ => true | _ => false end.


Definition is_write (e : Event) : bool :=
  match e with
  | Store (PlanCreate _) | Store (FeatureUsageUpsert _ _ _) => true
  | _ => false
  end.

(** ** The provider, as the SDK presents it *)

Class Provider (P : Type) : Type := {
  listWebhooks : option string -> P -> Response (list Webhook) * P;
  createWebhook : string -> NewWebhook -> P -> Response Webhook * P;
  getProduct : string -> P -> Response Product * P;
  getVariant : string -> P -> Response Variant * P;
  listVariants : option string -> P -> Response (list Variant) * P;
  listProducts : P -> Response (list Product) * P;
  createCheckout :
    string -> string -> NewCheckout -> P -> Response Checkout * P
}.

(** ** The monad of handlers *)

Inductive Result (A : Type) : Type :=
| Ok (value : A)
| Throw (message : string).

Arguments Ok {A} value.
Arguments Throw {A} message.

Record World (P : Type) : Type := mkWorld {
  db : Db;
  lemon : P;
  trace : list Event
}.

Definition M (P A : Type) : Type := World P -> Result A * World P.

Definition ret {P A : Type} (a : A) : M P A := fun w => (Ok a, w).

Definition throw {P A : Type} (msg : string) : M P A := fun w => (Throw msg, w).

Definition bind {P A B : Type} (m : M P A) (k : A -> M P B) : M P B :=
  fun w =>
    match m w with
    | (Ok a, w') => k a w'
    | (Throw msg, w') => (Throw msg, w')
    end.

Declare Scope handler_scope.
Delimit Scope handler_scope with handler.
Notation "x <- m ;; k" := (bind m (fun x => k))
  (at level 100, m at next level, right associativity) : handler_scope.
Notation "m ;; k" := (bind m (fun _ => k))
  (at level 100, right associativity) : handler_scope.
Open Scope handler_scope.

Definition emit {P : Type} (e : Event) : M P unit :=
  fun w => (Ok tt, mkWorld (db w) (lemon w) (trace w ++ [e])).

(** A provider call: recorded, then answered by the provider. *)
Definition api {P A : Type} (c : ApiCall) (f : P -> Response A * P)
  : M P (Response A) :=
  fun w =>
    let (r, p) := f (lemon w) in
    (Ok r, mkWorld (db w) p (trace w ++ [Api c])).

(** A read of the store. *)
Definition query {P A : Type} (q : Query) (f : Db -> A) : M P A :=
  fun w => (Ok (f (db w)), mkWorld (db w) (lemon w) (trace w ++ [Store q])).

(** A write to the store. *)
Definition mutate {P A : Type} (q : Query) (f : Db -> A * Db) : M P A :=
  fun w =>
    let (a, d) := f (db w) in
    (Ok a, mkWorld d (lemon w) (trace w ++ [Store q])).

(** [if (!x) { throw new Error(msg) }], after which [x] is a string. *)
Definition require {P : Type} (x : option string) (msg : string) : M P string :=
  match x with
  | Some s => if truthy x then ret s else throw msg
  | None => throw msg
  end.

(** ** The ORM operations the router uses *)

(** The database behind the ORM.  Asked for one row out of the rows that
    match, without an order, it answers with whichever of them it likes, and
    with none only when there is none.  Its choice is taken to be a function
    of the matching rows: the same matching rows get the same answer. *)
Unset Implicit Arguments.

Class Engine : Type := {
  first : forall A : Type, list A -> option A;
  first_In : forall (A : Type) (l : list A) (x : A),
    first A l = Some x -> In x l;
  first_None : forall (A : Type) (l : list A), first A l = None -> l = []
}.

Set Implicit Arguments.

Module Prisma.

(** [findFirst({ where })], without [orderBy]. *)
Definition findFirst {DBMS : Engine} {A : Type} (where_ : A -> bool)
    (table : list A) : option A := first A (filter where_ table).

Definition findUnique {A : Type} (where_ : A -> bool) (table : list A)
  : option A := find where_ table.

Definition findMany {A : Type} (where_ : A -> bool) (table : list A)
  : list A := filter where_ table.

(** [upsert({ where, update, create })]: the row with the unique key is
    updated where it stands; without one the created row is appended. *)
Fixpoint upsert {A : Type} (where_ : A -> bool) (update : A -> A)
    (create : A) (table : list A) : list A :=
  match table with
  | [] => [create]
  | r :: rest =>
      if where_ r then update r :: rest
      else r :: upsert where_ update create rest
  end.

Definition unique_violation : string :=
  "Unique constraint failed on the fields: (`lemonSqueezyVariantId`)".

(** [plan.create({ data })]. [lemonSqueezyVariantId] is a unique field of
    [Plan] (it is the [where] of a [findUnique]), so the insert is refused
    when a row already has the value. *)
Definition createPlan (row : Plan) (table : list Plan)
  : Result Plan * list Plan :=
  if existsb
       (fun p => lemonSqueezyVariantId p =? lemonSqueezyVariantId row)%string
       table
  then (Throw unique_violation, table)
  else (Ok row, (table ++ [row])%list).

End Prisma.

(** The [where] clauses. A field given as [undefined] is no condition. *)
Definition where_userId_date (user : string) (day : JsDate) (r : FeatureUsage)
  : bool := (userId r =? user)%string && date_eqb (date r) day.

Definition where_userId_since (user : string) (since : JsDate)
    (r : FeatureUsage) : bool :=
  (userId r =? user)%string && date_gte (date r) since.

Definition where_variant (variant : string) (p : Plan) : bool :=
  (lemonSqueezyVariantId p =? variant)%string.

Definition where_variant_opt (variant : option string) (p : Plan) : bool :=
  match variant with
  | Some v => where_variant v p
  | None => true
  end.

Definition set_featureUsage (t : list FeatureUsage) (d : Db) : Db :=
  mkDb t (plan d) (lemonSqueezySubscription d) (oneTimePurchase d).

Definition set_plan (t : list Plan) (d : Db) : Db :=
  mkDb (featureUsage d) t (lemonSqueezySubscription d) (oneTimePurchase d).

(** ** What the procedures answer *)

Record SubscriptionInfo : Type := mkSubscriptionInfo {
  si_subscription : option LemonSqueezySubscription;
  si_variant : option (Response Variant);
  si_plan : option Plan
}.

Record ProductInfo : Type := mkProductInfo {
  pi_product : option (Document Product);
  pi_variants : option (list Variant)
}.

Record Usage : Type := mkUsageTotals {
  totalButtonClicksToday : Z;
  totalButtonClicksThisMonth : Z
}.

(** A variant with the attribute [hasCorrespondingPlanInDB], and a product
    with its [variants]. *)
Definition VariantWithPlan : Type := (Variant * bool)%type.
Definition ProductWithVariants : Type :=
  (Product * option (list VariantWithPlan))%type.

(** ** The procedures *)

Section Router.

Context {P : Type} {SDK : Provider P} {DBMS : Engine}.

Variable env : Env.

Definition setupLemonSqueezy : M P unit :=
  emit (Setup (LEMON_SQUEEZY_API_KEY env)).

(** *** The SDK functions with required parameters

    [getProduct], [getVariant], [createCheckout] and [createWebhook] begin
    with the SDK's [requiredCheck]: a required parameter that is falsy makes
    the function throw, and no request is sent.  The listing functions have
    no required parameter. *)
Definition missing_parameter (key : string) : string :=
  "Please provide the required parameter: " ++ key ++ ".".

Definition sdkGetProduct (productId : string) : M P (Response Product) :=
  productId <- require (Some productId) (missing_parameter "productId") ;;
  api (GetProduct productId) (getProduct productId).

Definition sdkGetVariant (variantId : string) : M P (Response Variant) :=
  variantId <- require (Some variantId) (missing_parameter "variantId") ;;
  api (GetVariant variantId) (getVariant variantId).

Definition sdkCreateCheckout (storeId variantId : string)
    (checkout : NewCheckout) : M P (Response Checkout) :=
  storeId <- require (Some storeId) (missing_parameter "storeId") ;;
  variantId <- require (Some variantId) (missing_parameter "variantId") ;;
  api (CreateCheckout storeId variantId checkout)
      (createCheckout storeId variantId checkout).

Definition sdkCreateWebhook (storeId : option string) (webhook : NewWebhook)
  : M P (Response Webhook) :=
  storeId <- require storeId (missing_parameter "storeId") ;;
  api (CreateWebhook storeId webhook) (createWebhook storeId webhook).

Definition hasWebhook : M P (option Webhook) :=
  setupLemonSqueezy ;;
  webhookUrl <- require (LEMON_SQUEEZY_WEBHOOK_URL env)
    "Missing required WEBHOOK_URL env variable. Please, set it in your .env file." ;;
  allWebhooks <- api (ListWebhooks (LEMONSQUEEZY_STORE_ID env))
                     (listWebhooks (LEMONSQUEEZY_STORE_ID env)) ;;
  let webhook :=
    match payload allWebhooks with
    | Some whs =>
        find (fun wh => (url wh =? webhookUrl)%string && test_mode wh) whs
    | None => None
    end in
  ret webhook.

Definition getSubscriptionByUserId (session : option User)
  : M P SubscriptionInfo :=
  setupLemonSqueezy ;;
  match session with
  | None => throw "User not found in session"
  | Some user =>
      subscription <-
        query (SubscriptionFindFirst (id user))
          (fun d => Prisma.findFirst
                      (fun s => (sub_userId s =? id user)%string)
                      (lemonSqueezySubscription d)) ;;
      variant <-
        match subscription with
        | Some s =>
            if truthy (Some (variantId s))
            then r <- sdkGetVariant (variantId s) ;;
                 ret (Some r)
            else ret None
        | None => ret None
        end ;;
      plan <-
        query (PlanFindFirst (option_map variantId subscription))
          (fun d => Prisma.findFirst
                      (where_variant_opt (option_map variantId subscription))
                      (plan d)) ;;
      ret (mkSubscriptionInfo subscription variant plan)
  end.

Definition getProductById (productId : string)
    (hideDefaultVariant : option bool) : M P ProductInfo :=
  setupLemonSqueezy ;;
  getProductQuery <- sdkGetProduct productId ;;
  getProductVariantsQuery <-
    api (ListVariants (Some productId)) (listVariants (Some productId)) ;;
  let variants :=
    option_map
      (filter (fun variant =>
                 if nullish hideDefaultVariant false
                 then negb (status variant =? "pending")%string
                 else true))
      (payload getProductVariantsQuery) in
  let product := data getProductQuery in
  ret (mkProductInfo product variants).

Definition createCheckoutForVariant (session : option User)
    (variant : string) (embed : option bool) : M P (Response Checkout) :=
  setupLemonSqueezy ;;
  let user := session in
  emit (ConsoleLog user
          (interpolate (NEXT_PUBLIC_DEPLOYMENT_URL env) ++ "/billing")
          variant) ;;
  storeId <- require (LEMON_SQUEEZY_STORE_ID env)
    "Missing required LEMON_SQUEEZY_STORE_ID env variable. Please, set it in your .env file." ;;
  let checkoutData :=
    mkNewCheckout
      (nullish (match user with Some u => email u | None => None end)
               "undefined")
      (option_map id user)
      (interpolate (NEXT_PUBLIC_DEPLOYMENT_URL env) ++ "/billing")
      embed in
  checkout <- sdkCreateCheckout storeId variant checkoutData ;;
  ret checkout.

Definition createLsWebhook (user : User) : M P unit :=
  emit (Setup (LEMON_SQUEEZY_API_KEY env)) ;;
  if negb (role user =? "SUPER_ADMIN")%string
  then throw "Unauthorized access to the resource"
  else
    webHookUrl <- require (LEMON_SQUEEZY_WEBHOOK_URL env)
      "Missing required LEMON_SQUEEZY_WEBHOOK_URL env variable. Please, set it in your .env file." ;;
    webHook <- hasWebhook ;;
    match webHook with
    | None =>
        let webhook :=
          mkNewWebhook (LEMON_SQUEEZY_WEBHOOK_SECRET env) webHookUrl true
            ["subscription_created"; "subscription_expired";
             "subscription_updated"] in
        sdkCreateWebhook (LEMON_SQUEEZY_STORE_ID env) webhook ;;
        ret tt
    | Some _ => ret tt
    end.

Definition getWebhook : M P (option Webhook) :=
  webhook <- hasWebhook ;;
  ret webhook.

(** *** [createPlansFromLemonSqueezyVariants]

    [Promise.all(variants.map(async (variant) => ...))] starts one
    asynchronous task per variant.  A task sends [findUnique], waits, and
    when no row came back sends [create] and waits again; between their
    waits the tasks interleave freely.  A task is therefore a small state
    machine advanced one store operation at a time, and the order in which
    the store serves the operations is an input: the [schedule], a list of
    task positions.  When the schedule ends the tasks still running are
    finished from left to right, so every schedule is a complete run and
    every interleaving is the run of some schedule. *)

Inductive Task : Type :=
| Pending (variant : Variant)
| Creating (variant : Variant)
| Fulfilled (row : Plan)
| Rejected (message : string).

Definition planOf (variant : Variant) : Plan :=
  mkPlan (v_id variant) (v_name variant).

Definition findExisting (variant : Variant) : M P (option Plan) :=
  query (PlanFindUnique (v_id variant))
    (fun d => Prisma.findUnique (where_variant (v_id variant)) (plan d)).

Definition createMissing (variant : Variant) : M P (Result Plan) :=
  mutate (PlanCreate (planOf variant))
    (fun d =>
       let (r, t) := Prisma.createPlan (planOf variant) (plan d) in
       (r, set_plan t d)).

(** The next store operation of a task. *)
Definition advance (t : Task) : M P Task :=
  match t with
  | Pending variant =>
      existingPlan <- findExisting variant ;;
      match existingPlan with
      | None => ret (Creating variant)
      | Some row => ret (Fulfilled row)
      end
  | Creating variant =>
      created <- createMissing variant ;;
      match created with
      | Ok row => ret (Fulfilled row)
      | Throw msg => ret (Rejected msg)
      end
  | Fulfilled _ | Rejected _ => ret t
  end.

Fixpoint replace (i : nat) (t : Task) (ts : list Task) : list Task :=
  match ts, i with
  | [], _ => []
  | _ :: rest, O => t :: rest
  | t0 :: rest, S j => t0 :: replace j t rest
  end.

Fixpoint interleave (schedule : list nat) (ts : list Task)
  : M P (list Task) :=
  match schedule with
  | [] => ret ts
  | i :: later =>
      match nth_error ts i with
      | Some t =>
          t' <- advance t ;;
          interleave later (replace i t' ts)
      | None => interleave later ts
      end
  end.

(** Runs a task from where it stands to its end. *)
Definition settle (t : Task) : M P (Result Plan) :=
  match t with
  | Pending variant =>
      existingPlan <- findExisting variant ;;
      match existingPlan with
      | None => createMissing variant
      | Some row => ret (Ok row)
      end
  | Creating variant => createMissing variant
  | Fulfilled row => ret (Ok row)
  | Rejected msg => ret (Throw msg)
  end.

Fixpoint settleAll (ts : list Task) : M P (list (Result Plan)) :=
  match ts with
  | [] => ret []
  | t :: rest =>
      r <- settle t ;;
      rs <- settleAll rest ;;
      ret (r :: rs)
  end.

(** The value of [Promise.all]: every row, in the order of the tasks, or
    the rejection. *)
Fixpoint all (rs : list (Result Plan)) : Result (list Plan) :=
  match rs with
  | [] => Ok []
  | Ok row :: rest =>
      match all rest with
      | Ok rows => Ok (row :: rows)
      | Throw msg => Throw msg
      end
  | Throw msg :: _ => Throw msg
  end.

Definition createPlansFromLemonSqueezyVariants (user : User)
    (schedule : list nat) : M P (list Plan) :=
  if negb (role user =? "SUPER_ADMIN")%string
  then throw "Unauthorized access to the resource"
  else
    setupLemonSqueezy ;;
    variantsResponse <- api (ListVariants None) (listVariants None) ;;
    match payload variantsResponse with
    | None => throw "Failed to fetch variants from Lemon Squeezy."
    | Some variants =>
        running <- interleave schedule (map Pending variants) ;;
        settled <- settleAll running ;;
        match all settled with
        | Ok plans => ret plans
        | Throw msg => throw msg
        end
    end.

Definition getProductsFromLemonSqueezy
  : M P (option (list ProductWithVariants)) :=
  setupLemonSqueezy ;;
  products <- api ListProducts listProducts ;;
  variants <- api (ListVariants None) (listVariants None) ;;
  plansInDatabase <- query PlanFindMany (fun d => plan d) ;;
  let planVariantIdsInDB := map lemonSqueezyVariantId plansInDatabase in
  let productsWithVariants :=
    option_map
      (map (fun product =>
         let productVariants :=
           option_map
             (fun vs =>
                map (fun variant =>
                       let hasCorrespondingPlanInDB :=
                         existsb (String.eqb (v_id variant))
                                 planVariantIdsInDB in
                       (variant, hasCorrespondingPlanInDB))
                    (filter (fun variant =>
                               (String_ (product_id variant)
                                =? p_id product)%string)
                            vs))
             (payload variants) in
         (product, productVariants)))
      (payload products) in
  ret productsWithVariants.

(** [now] is the value of [new Date()] during the request. *)
Variable now : JsDate.

Definition spendCredits (user : User) (amount : Z) : M P unit :=
  let today := setHours0 now in
  mutate (FeatureUsageUpsert (id user) today amount)
    (fun d =>
       (tt,
        set_featureUsage
          (Prisma.upsert
             (where_userId_date (id user) today)
             (fun r => mkUsage (userId r) (date r) (buttonClicks r + amount))
             (mkUsage (id user) today amount)
             (featureUsage d))
          d)).

Definition getUsageForUser (user : User) : M P Usage :=
  let todayStart := setHours0 now in
  let monthStart := setHours0 (setDate1 now) in
  todaysUsage <-
    query (FeatureUsageFindFirst (id user) todayStart)
      (fun d => Prisma.findFirst (where_userId_since (id user) todayStart)
                  (featureUsage d)) ;;
  currentMonthUsage <-
    query (FeatureUsageFindMany (id user) monthStart)
      (fun d => Prisma.findMany (where_userId_since (id user) monthStart)
                  (featureUsage d)) ;;
  let totalButtonClicksThisMonth :=
    fold_left (fun acc usage => acc + buttonClicks usage)
              currentMonthUsage 0 in
  let totalButtonClicksToday :=
    nullish (option_map buttonClicks todaysUsage) 0 in
  ret (mkUsageTotals totalButtonClicksToday totalButtonClicksThisMonth).

Definition getOneTimePurchasesForUser (user : User)
  : M P (list OneTimePurchase) :=
  oneTimePurchases <-
    query (OneTimePurchaseFindMany (id user))
      (fun d => Prisma.findMany (fun r => (otp_userId r =? id user)%string)
                  (oneTimePurchase d)) ;;
  ret oneTimePurchases.

Definition getAllVariants : M P (Response (list Variant)) :=
  setupLemonSqueezy ;;
  variants <- api (ListVariants None) (listVariants None) ;;
  ret variants.

(** *** The router: one request, one procedure *)

Inductive Request : Type :=
| GetSubscriptionByUserId (session : option User)
| GetProductById (productId : string) (hideDefaultVariant : option bool)
| CreateCheckoutForVariant (session : option User) (variant : string)
    (embed : option bool)
| CreateLsWebhook (user : User)
| GetWebhook (user : User)
| CreatePlansFromLemonSqueezyVariants (user : User) (schedule : list nat)
| GetProductsFromLemonSqueezy (user : User)
| SpendCredits (user : User) (amount : Z)
| GetUsageForUser (user : User)
| GetOneTimePurchasesForUser (user : User)
| GetAllVariants (user : User).

Inductive Reply : Type :=
| SubscriptionReply (info : SubscriptionInfo)
| ProductReply (info : ProductInfo)
| CheckoutReply (checkout : Response Checkout)
| Void
| WebhookReply (webhook : option Webhook)
| PlansReply (plans : list Plan)
| ProductsReply (products : option (list ProductWithVariants))
| UsageReply (usage : Usage)
| PurchasesReply (purchases : list OneTimePurchase)
| VariantsReply (variants : Response (list Variant)).

Definition answer {A : Type} (wrap : A -> Reply) (m : M P A) : M P Reply :=
  a <- m ;; ret (wrap a).

Definition paymentManagementRouter (r : Request) : M P Reply :=
  match r with
  | GetSubscriptionByUserId session =>
      answer SubscriptionReply (getSubscriptionByUserId session)
  | GetProductById productId hide =>
      answer ProductReply (getProductById productId hide)
  | CreateCheckoutForVariant session variant embed =>
      answer CheckoutReply (createCheckoutForVariant session variant embed)
  | CreateLsWebhook user => answer (fun _ => Void) (createLsWebhook user)
  | GetWebhook _ => answer WebhookReply getWebhook
  | CreatePlansFromLemonSqueezyVariants user schedule =>
      answer PlansReply (createPlansFromLemonSqueezyVariants user schedule)
  | GetProductsFromLemonSqueezy _ =>
      answer ProductsReply getProductsFromLemonSqueezy
  | SpendCredits user amount =>
      answer (fun _ => Void) (spendCredits user amount)
  | GetUsageForUser user => answer UsageReply (getUsageForUser user)
  | GetOneTimePurchasesForUser user =>
      answer PurchasesReply (getOneTimePurchasesForUser user)
  | GetAllVariants _ => answer VariantsReply getAllVariants
  end.

End Router.

(** ** A provider to run the procedures against

    An account that keeps its webhooks, variants and products in lists and
    answers every call while it is [online]; offline it answers without data. *)

Record Account : Type := mkAccount {
  online : bool;
  webhooks : list Webhook;
  variants : list Variant;
  products : list Product
}.

Module Account.

Definition answer {A : Type} (a : Account) (x : A) : Response A :=
  if online a then mkResponse (Some 200) None (Some (mkDocument x))
  else mkResponse None (Some "fetch failed") None.

Definition refuse {A : Type} : Response A :=
  mkResponse (Some 404) (Some "Not Found") None.

Definition in_store (storeId : option string) (wh : Webhook) : bool :=
  match storeId with
  | Some s => (wh_store_id wh =? s)%string
  | None => true
  end.

Definition of_product (productId : option string) (v : Variant) : bool :=
  match productId with
  | Some p => (String_ (product_id v) =? p)%string
  | None => true
  end.

(** The webhook the account makes of a request, under the next free number. *)
Definition register (a : Account) (storeId : string) (w : NewWebhook)
  : Webhook :=
  mkWebhook (String_ (Z.of_nat (S (length (webhooks a))))) storeId (nw_url w)
    (testMode w).

Definition lookup {A : Type} (key : A -> string) (k : string) (l : list A)
    (a : Account) : Response A :=
  match find (fun x => (key x =? k)%string) l with
  | Some x => answer a x
  | None => refuse
  end.

#[export] Instance sdk : Provider Account := {|
  listWebhooks storeId a :=
    (answer a (filter (in_store storeId) (webhooks a)), a);
  createWebhook storeId w a :=
    (answer a (register a storeId w),
     if online a
     then mkAccount (online a) (webhooks a ++ [register a storeId w])
                    (variants a) (products a)
     else a);
  getProduct productId a := (lookup p_id productId (products a) a, a);
  getVariant variant a := (lookup v_id variant (variants a) a, a);
  listVariants productId a :=
    (answer a (filter (of_product productId) (variants a)), a);
  listProducts a := (answer a (products a), a);
  createCheckout storeId variant c a :=
    (answer a (mkCheckout ("https://checkout.test/" ++ variant)), a)
|}.

End Account.
Export Account.

(** ** Reading a run *)

(** The effects a computation adds to the trace of the world it starts in. *)
Definition performed {P A : Type} (m : M P A) (w : World P) : list Event :=
  skipn (length (trace w)) (trace (snd (m w))).

Definition throws {P A : Type} (m : M P A) (w : World P) : Prop :=
  exists msg : string, fst (m w) = Throw msg.

(** What [hasWebhook] finds at the provider, the webhook URL being [u]. *)
Definition matching (u : string) (wh : Webhook) : bool :=
  (url wh =? u)%string && test_mode wh.

Definition found {P : Type} {SDK : Provider P} (env : Env) (u : string)
    (p : P) : option Webhook :=
  match payload (fst (listWebhooks (LEMONSQUEEZY_STORE_ID env) p)) with
  | Some whs => find (matching u) whs
  | None => None
  end.

(** The webhook [createLsWebhook] asks for. *)
Definition wanted (env : Env) (u : string) : NewWebhook :=
  mkNewWebhook (LEMON_SQUEEZY_WEBHOOK_SECRET env) u true
    ["subscription_created"; "subscription_expired"; "subscription_updated"].


(** *** Usage rows *)

(** At most one row for a user and a day. *)
Definition usage_key (r : FeatureUsage) : string * JsDate :=
  (userId r, date r).

Definition one_row_per_day (t : list FeatureUsage) : Prop :=
  NoDup (map usage_key t).

Definition increment (amount : Z) (r : FeatureUsage) : FeatureUsage :=
  mkUsage (userId r) (date r) (buttonClicks r + amount).

Fixpoint total (amounts : list Z) : Z :=
  match amounts with
  | [] => 0
  | a :: rest => a + total rest
  end.

Definition clicks (rows : list FeatureUsage) : Z :=
  total (map buttonClicks rows).

(** Successive [spendCredits] requests of one user: each comes with the
    moment it is served at and its amount. *)
Fixpoint spendAll {P : Type} (user : User) (calls : list (JsDate * Z))
  : M P unit :=
  match calls with
  | [] => ret tt
  | (now, amount) :: later =>
      spendCredits now user amount ;;
      spendAll user later
  end.


(** *** Plans *)

Definition missing (t : list Plan) (v : Variant) : bool :=
  negb (existsb (where_variant (v_id v)) t).

(** The plan a variant ends with: the row it had, or a new one. *)
Definition planFor (t : list Plan) (v : Variant) : Plan :=
  nullish (find (where_variant (v_id v)) t) (planOf v).

(** A request is turned away for want of the role when it throws the
    authorization error having reached neither the provider nor the store. *)
Definition turned_away {P A : Type} (m : M P A) (w : World P) : Prop :=
  fst (m w) = Throw "Unauthorized access to the resource"
  /\ db (snd (m w)) = db w
  /\ lemon (snd (m w)) = lemon w
  /\ existsb is_api (performed m w) = false
  /\ existsb is_write (performed m w) = false.

(** [createCheckoutForVariant] goes through for a visitor without session:
    [createCheckout] is called once, for the given variant, with the e-mail
    "undefined" and no [userIdInDatabase], and its answer is returned. *)
Definition checks_out_anonymously {P : Type} {SDK : Provider P} (env : Env)
    (variant : string) (embed : option bool) (w : World P) : Prop :=
  let m := createCheckoutForVariant env None variant embed in
  exists (storeId : string) (sent : NewCheckout),
    filter is_api (performed m w) = [Api (CreateCheckout storeId variant sent)]
    /\ co_email sent = "undefined"
    /\ userIdInDatabase sent = None
    /\ fst (m w) = Ok (fst (createCheckout storeId variant sent (lemon w))).

(** A provider answer without data. *)
Definition no_data {A : Type} (r : Response A) : Prop := data r = None.




(** A computation that leaves the usage rows as they are. *)
Definition keeps_usage {P A : Type} (m : M P A) : Prop :=
  forall w, featureUsage (db (snd (m w))) = featureUsage (db w).

(** *** The tasks of plan creation, seen from the table

    [t0] is the plan table when the procedure starts and [t] the table now.
    A task that has not yet looked for its row still sees under its key what
    [t0] had; a task about to create has found nothing under its key; a task
    that is through holds the plan of its variant, which the table has under
    the key; no task has been refused. *)
Definition task_ok (t0 t : list Plan) (v : Variant) (k : Task) : Prop :=
  match k with
  | Pending v' =>
      v' = v
      /\ find (where_variant (v_id v)) t = find (where_variant (v_id v)) t0
  | Creating v' => v' = v /\ find (where_variant (v_id v)) t = None
  | Fulfilled row =>
      row = planFor t0 v /\ find (where_variant (v_id v)) t = Some row
  | Rejected _ => False
  end.

(** The rows [c] added so far: one per key, each the plan of a variant that
    had none. *)
Definition created_from (t0 : list Plan) (vs : list Variant) (c : list Plan)
  : Prop :=
  NoDup (map lemonSqueezyVariantId c)
  /\ forall row, In row c ->
       exists v, In v vs /\ missing t0 v = true /\ row = planOf v.

(** The table of [w] is [t0] followed by rows created for [vs]. *)
Definition grown {P : Type} (t0 : list Plan) (vs : list Variant)
    (w : World P) : Prop :=
  exists c, plan (db w) = (t0 ++ c)%list /\ created_from t0 vs c.

(** What a store operation of the task of [v] leaves in place: the provider,
    and what the table holds under the other ids. *)
Definition undisturbed {P : Type} (v : Variant) (w w' : World P) : Prop :=
  lemon w' = lemon w
  /\ forall k, k <> v_id v ->
       find (where_variant k) (plan (db w'))
       = find (where_variant k) (plan (db w)).

(** *** What a run leaves in place

    [respects R m]: every run of [m] takes a world to one related to it by
    [R].  The relations below say which part of the world stays as it was. *)
Definition respects {P A : Type} (R : World P -> World P -> Prop)
    (m : M P A) : Prop :=
  forall w, R w (snd (m w)).

Definition same_store {P : Type} (w w' : World P) : Prop := db w' = db w.

Definition same_provider {P : Type} (w w' : World P) : Prop :=
  lemon w' = lemon w.

(** The store but for the plans, and the store but for the usage rows. *)
Definition same_but_plans {P : Type} (w w' : World P) : Prop :=
  featureUsage (db w') = featureUsage (db w)
  /\ lemonSqueezySubscription (db w') = lemonSqueezySubscription (db w)
  /\ oneTimePurchase (db w') = oneTimePurchase (db w).

Definition same_but_usage {P : Type} (w w' : World P) : Prop :=
  plan (db w') = plan (db w)
  /\ lemonSqueezySubscription (db w') = lemonSqueezySubscription (db w)
  /\ oneTimePurchase (db w') = oneTimePurchase (db w).

(** The trace grows, and by effects of the kind [ok] only. *)
Definition only_emits {P : Type} (ok : Event -> bool) (w w' : World P)
  : Prop :=
  exists evs, trace w' = (trace w ++ evs)%list /\ forallb ok evs = true.

Definition no_write (e : Event) : bool := negb (is_write e).

Definition no_api (e : Event) : bool := negb (is_api e).

(** Neither the SDK nor the provider. *)
Definition store_only (e : Event) : bool :=
  match e with Store _ => true | _ => false end.

(** The plan table is read by unique key and inserted into, nothing else. *)
Definition plan_traffic (e : Event) : bool :=
  match e with
  | Store (PlanFindUnique _) | Store (PlanCreate _) => true
  | _ => false
  end.

(** The requests that write to the store. *)
Definition writes (r : Request) : bool :=
  match r with
  | SpendCredits _ _ | CreatePlansFromLemonSqueezyVariants _ _ => true
  | _ => false
  end.

(** The requests served from the store alone. *)
Definition local (r : Request) : bool :=
  match r with
  | SpendCredits _ _ | GetUsageForUser _ | GetOneTimePurchasesForUser _ => true
  | _ => false
  end.

(** [l1] is the beginning of [l2]. *)
Definition prefix {A : Type} (l1 l2 : list A) : Prop :=
  exists rest, l2 = (l1 ++ rest)%list.

(** A row is the plan of one of the variants. *)
Definition plan_of_some (vs : list Variant) (row : Plan) : Prop :=
  exists v, In v vs /\ row = planOf v.

(** At most one plan for a variant id. *)
Definition one_plan_per_variant (t : list Plan) : Prop :=
  NoDup (map lemonSqueezyVariantId t).

(** The effects of plan creation: the SDK set-up, the listing of all
    variants, and the traffic on the plan table. *)
Definition plan_creation_effect (e : Event) : bool :=
  match e with
  | Setup _ | Api (ListVariants None) => true
  | _ => plan_traffic e
  end.

(** The table of [w'] is that of [w] followed by plans of variants among
    [vs], and still has one plan per variant id if it had. *)
Definition grows_by {P : Type} (vs : list Variant) (w w' : World P) : Prop :=
  (exists c, plan (db w') = (plan (db w) ++ c)%list
             /\ Forall (plan_of_some vs) c)
  /\ (one_plan_per_variant (plan (db w)) ->
      one_plan_per_variant (plan (db w'))).

(** The task at the place of the variant [v] works for [v]. *)
Definition task_for (v : Variant) (t : Task) : Prop :=
  match t with
  | Pending v' | Creating v' => v' = v
  | Fulfilled row => lemonSqueezyVariantId row = v_id v
  | Rejected msg => msg = Prisma.unique_violation
  end.

Definition settled_for (v : Variant) (r : Result Plan) : Prop :=
  match r with
  | Ok row => lemonSqueezyVariantId row = v_id v
  | Throw msg => msg = Prisma.unique_violation
  end.

(** *** Errors *)

(** Whatever [m] throws is among the messages [l]. *)
Definition throws_in {P A : Type} (l : list string) (m : M P A) : Prop :=
  forall w msg, fst (m w) = Throw msg -> In msg l.

(** The error messages of each procedure: those of its own guards, and
    those of the parameter checks of the SDK functions it calls with a
    parameter that can be falsy. *)
Definition errors (r : Request) : list string :=
  match r with
  | GetSubscriptionByUserId _ => ["User not found in session"]
  | GetProductById _ _ => [missing_parameter "productId"]
  | CreateCheckoutForVariant _ _ _ =>
      ["Missing required LEMON_SQUEEZY_STORE_ID env variable. Please, set it in your .env file.";
       missing_parameter "variantId"]
  | CreateLsWebhook _ =>
      ["Unauthorized access to the resource";
       "Missing required LEMON_SQUEEZY_WEBHOOK_URL env variable. Please, set it in your .env file.";
       missing_parameter "storeId"]
  | GetWebhook _ =>
      ["Missing required WEBHOOK_URL env variable. Please, set it in your .env file."]
  | CreatePlansFromLemonSqueezyVariants _ _ =>
      ["Unauthorized access to the resource";
       "Failed to fetch variants from Lemon Squeezy.";
       Prisma.unique_violation]
  | GetProductsFromLemonSqueezy _ | SpendCredits _ _
  | GetUsageForUser _ | GetOneTimePurchasesForUser _ | GetAllVariants _ => []
  end.

(** ** Two databases

    One answers [findFirst] with the qualifying row that was inserted first,
    the other with the one inserted last. *)
Module Engines.

Definition newest {A : Type} (l : list A) : option A := hd_error (rev l).

Definition oldest_first : Engine.
Proof.
  refine (Build_Engine (fun A => @hd_error A) _ _).
  - intros A [|a l] x H; [discriminate|]. injection H as ->. now left.
  - intros A [|a l] H; [reflexivity|discriminate].
Defined.

Definition newest_first : Engine.
Proof.
  refine (Build_Engine (fun A => @newest A) _ _).
  - intros A l x H. apply in_rev. unfold newest in H.
    destruct (rev l) as [|a r]; [discriminate|]. injection H as ->. now left.
  - intros A l H. unfold newest in H. rewrite <- (rev_involutive l).
    destruct (rev l); [reflexivity|discriminate].
Defined.

End Engines.

(** ** Sample data *)

Module Sample.

Definition env : Env :=
  mkEnv (Some "key") (Some "https://app.test/hook") (Some "42")
        (Some "s3cret") (Some "https://app.test") None.

(** The same configuration without store id and webhook secret. *)
Definition env_no_store : Env :=
  mkEnv (Some "key") (Some "https://app.test/hook") None None
        (Some "https://app.test") None.

Definition admin : User := mkUser "u1" (Some "root@app.test") "SUPER_ADMIN".
Definition joe : User := mkUser "u2" (Some "joe@app.test") "USER".

Definition pro : Variant := mkVariant "v1" 7 "Pro" "published".
Definition basic : Variant := mkVariant "v2" 7 "Basic" "pending".

Definition account : Account :=
  mkAccount true [] [pro; basic] [mkProduct "7" "App"].

Definition offline : Account := mkAccount false [] [pro; basic] [].

Definition noon : JsDate := mkDate 2024 5 17 43200000.
Definition evening : JsDate := mkDate 2024 5 17 72000000.
Definition today : JsDate := mkDate 2024 5 17 0.
Definition tomorrow : JsDate := mkDate 2024 5 18 0.

Definition empty : Db := mkDb [] [] [] [].

Definition world : World Account := mkWorld empty account [].

Definition world_offline : World Account := mkWorld empty offline [].

(** A store that already holds the plan of [pro]. *)
Definition world_with_plan : World Account :=
  mkWorld (mkDb [] [mkPlan "v1" "Pro (renamed)"] [] []) account [].

(** A store where [admin] is subscribed to [pro]. *)
Definition world_subscribed : World Account :=
  mkWorld (mkDb [] [mkPlan "v1" "Pro"] [mkSubscription "u1" "v1"] [])
          account [].

(** A store with a usage row of [joe] dated the next day. *)
Definition world_ahead : World Account :=
  mkWorld (mkDb [mkUsage "u2" tomorrow 5] [] [] []) account [].

End Sample.

(** * Properties *)

Unset Implicit Arguments.

(** ** Runs and traces *)

Lemma performed_app {P A : Type} (m : M P A) (w : World P) (evs : list Event) :
  trace (snd (m w)) = (trace w ++ evs)%list -> performed m w = evs.
Proof.
  intros H. unfold performed. rewrite H.
  rewrite skipn_app, skipn_all, Nat.sub_diag. reflexivity.
Qed.

Lemma truthy_Some (s : string) :
  truthy (Some s) = true <-> s <> "".
Proof.
  simpl. destruct (String.eqb_spec s ""); simpl; split; intros; congruence.
Qed.

Lemma require_ok {P : Type} (x : option string) (msg : string) (w : World P) :
  truthy x = true ->
  exists s, x = Some s /\ require x msg w = (Ok s, w).
Proof.
  destruct x as [s|]; [|discriminate].
  intros H. exists s. split; [reflexivity|].
  unfold require. rewrite H. reflexivity.
Qed.

Lemma require_throw {P : Type} (x : option string) (msg : string)
    (w : World P) :
  truthy x = false -> require (P:=P) x msg w = (Throw msg, w).
Proof.
  destruct x as [s|]; intros H; unfold require; [rewrite H|]; reflexivity.
Qed.

(** ** Authorization *)

Lemma unauthorized_role_stops
    {P : Type} {SDK : Provider P} (env : Env) (user : User) (w : World P) :
  role user <> "SUPER_ADMIN" ->
  createLsWebhook env user w
  = (Throw "Unauthorized access to the resource",
     mkWorld (db w) (lemon w) (trace w ++ [Setup (LEMON_SQUEEZY_API_KEY env)]))
  /\ performed (createLsWebhook env user) w
     = [Setup (LEMON_SQUEEZY_API_KEY env)].
Proof.
  intros Hrole. apply String.eqb_neq in Hrole.
  assert (E : createLsWebhook env user w
              = (Throw "Unauthorized access to the resource",
                 mkWorld (db w) (lemon w)
                   (trace w ++ [Setup (LEMON_SQUEEZY_API_KEY env)]))).
  { unfold createLsWebhook, bind, emit. rewrite Hrole. reflexivity. }
  split; [exact E|]. apply performed_app. rewrite E. reflexivity.
Qed.

(** C3. Whoever calls [createLsWebhook] or
    [createPlansFromLemonSqueezyVariants] with a session role other than
    SUPER_ADMIN gets the error "Unauthorized access to the resource"; the
    request makes no provider call (so creates no webhook) and writes nothing
    to the store. *)
Theorem unauthorized_roles_are_rejected
    {P : Type} {SDK : Provider P} (env : Env) (user : User)
    (schedule : list nat) (w : World P) :
  role user <> "SUPER_ADMIN" ->
  turned_away (createLsWebhook env user) w
  /\ turned_away (createPlansFromLemonSqueezyVariants env user schedule) w.
Proof.
  intros Hrole.
  apply String.eqb_neq in Hrole.
  assert (Hw : mkWorld (db w) (lemon w) (trace w) = w) by (destruct w; reflexivity).
  split; unfold turned_away.
  - assert (E : createLsWebhook env user w
                = (Throw "Unauthorized access to the resource",
                   mkWorld (db w) (lemon w)
                     (trace w ++ [Setup (LEMON_SQUEEZY_API_KEY env)]))).
    { unfold createLsWebhook, bind, emit. rewrite Hrole. reflexivity. }
    rewrite (performed_app _ _ [Setup (LEMON_SQUEEZY_API_KEY env)]);
      rewrite E; simpl; auto.
  - assert (E : createPlansFromLemonSqueezyVariants env user schedule w
                = (Throw "Unauthorized access to the resource", w)).
    { unfold createPlansFromLemonSqueezyVariants. rewrite Hrole. reflexivity. }
    rewrite (performed_app _ _ []); rewrite E; simpl; auto.
    now rewrite app_nil_r.
Qed.

Lemma unauthorized_roles_are_rejected_witness :
  role Sample.joe <> "SUPER_ADMIN"
  /\ turned_away (createLsWebhook Sample.env Sample.joe) Sample.world
  /\ turned_away
       (createPlansFromLemonSqueezyVariants Sample.env Sample.joe [1%nat; 0%nat])
       Sample.world.
Proof.
  split; [discriminate|].
  apply unauthorized_roles_are_rejected. discriminate.
Defined.

(** ** The database's choice *)

Section FindFirst.

Context {DBMS : Engine} {A : Type}.
Variable where_ : A -> bool.

Lemma findFirst_none (table : list A) :
  (forall x, In x table -> where_ x = false) ->
  Prisma.findFirst where_ table = None.
Proof.
  intros H. unfold Prisma.findFirst.
  assert (E : filter where_ table = []).
  { induction table as [|a t IH]; simpl; [reflexivity|].
    rewrite (H a (or_introl eq_refl)). apply IH.
    intros x Hx. apply H. now right. }
  rewrite E. destruct (first A []) as [x|] eqn:Hx; [|reflexivity].
  destruct (first_In A [] x Hx).
Qed.

Lemma findFirst_some (table : list A) (x : A) :
  Prisma.findFirst where_ table = Some x -> In x table /\ where_ x = true.
Proof.
  intros H. apply first_In in H. now apply filter_In in H.
Qed.

Lemma findFirst_None (table : list A) :
  Prisma.findFirst where_ table = None ->
  forall x, In x table -> where_ x = false.
Proof.
  intros H x Hx. apply first_None in H.
  destruct (where_ x) eqn:E; [|reflexivity].
  assert (Hin : In x (filter where_ table)) by (apply filter_In; auto).
  rewrite H in Hin. destruct Hin.
Qed.

(** Where one row qualifies there is no choice. *)
Lemma findFirst_only (table : list A) (x : A) :
  filter where_ table = [x] -> Prisma.findFirst where_ table = Some x.
Proof.
  intros H. unfold Prisma.findFirst. rewrite H.
  destruct (first A [x]) as [y|] eqn:E.
  - apply first_In in E. destruct E as [<-|[]]. reflexivity.
  - apply first_None in E. discriminate.
Qed.

End FindFirst.

(** ** Subscriptions *)

Lemma find_none_iff {A : Type} (f : A -> bool) (l : list A) :
  find f l = None <-> (forall x, In x l -> f x = false).
Proof.
  split.
  - intros H x Hx. exact (find_none f l H x Hx).
  - induction l as [|a l IH]; intros H; simpl; [reflexivity|].
    rewrite (H a (or_introl eq_refl)). apply IH.
    intros x Hx. apply H. now right.
Qed.

(** C10. For an authenticated user without a stored subscription row,
    [getSubscriptionByUserId] answers with no subscription and no variant,
    never calls [getVariant], and still runs the plan lookup, whose filter on
    the variant id is absent. *)
Theorem no_subscription_skips_variant
    {P : Type} {SDK : Provider P} {DBMS : Engine} (env : Env) (user : User)
    (w : World P) :
  (forall s, In s (lemonSqueezySubscription (db w)) -> sub_userId s <> id user) ->
  let m := getSubscriptionByUserId env (Some user) in
  (exists p, fst (m w) = Ok (mkSubscriptionInfo None None p))
  /\ performed m w
     = [Setup (LEMON_SQUEEZY_API_KEY env);
        Store (SubscriptionFindFirst (id user));
        Store (PlanFindFirst None)]
  /\ lemon (snd (m w)) = lemon w.
Proof.
  intros Hnone m.
  assert (Hfind : Prisma.findFirst (fun s => (sub_userId s =? id user)%string)
                    (lemonSqueezySubscription (db w)) = None).
  { apply findFirst_none. intros s Hs. apply String.eqb_neq. auto. }
  assert (E : m w
              = (Ok (mkSubscriptionInfo None None
                       (Prisma.findFirst (where_variant_opt None) (plan (db w)))),
                 mkWorld (db w) (lemon w)
                   (trace w ++ [Setup (LEMON_SQUEEZY_API_KEY env);
                                Store (SubscriptionFindFirst (id user));
                                Store (PlanFindFirst None)]))).
  { unfold m, getSubscriptionByUserId, setupLemonSqueezy, bind, emit, query, ret.
    simpl. rewrite Hfind. simpl. rewrite <- !app_assoc. reflexivity. }
  split; [|split].
  - eexists. rewrite E. reflexivity.
  - apply performed_app. rewrite E. reflexivity.
  - rewrite E. reflexivity.
Qed.

Lemma no_subscription_skips_variant_witness :
  let m :=
    getSubscriptionByUserId (DBMS:=Engines.newest_first) Sample.env
      (Some Sample.joe) in
  (forall s, In s (lemonSqueezySubscription (db Sample.world_subscribed)) ->
             sub_userId s <> id Sample.joe)
  /\ (exists p, fst (m Sample.world_subscribed)
                = Ok (mkSubscriptionInfo None None p))
  /\ performed m Sample.world_subscribed
     = [Setup (Some "key"); Store (SubscriptionFindFirst "u2");
        Store (PlanFindFirst None)]
  /\ lemon (snd (m Sample.world_subscribed)) = lemon Sample.world_subscribed.
Proof.
  assert (H : forall s,
             In s (lemonSqueezySubscription (db Sample.world_subscribed)) ->
             sub_userId s <> id Sample.joe).
  { simpl. intros s [<-|[]]. discriminate. }
  split; [exact H|].
  exact (no_subscription_skips_variant (DBMS:=Engines.newest_first)
           Sample.env Sample.joe Sample.world_subscribed H).
Defined.

(** ** Checkout *)

Lemma createCheckoutForVariant_run
    {P : Type} {SDK : Provider P} (env : Env) (session : option User)
    (variant : string) (embed : option bool) (w : World P) :
  let redirect := (interpolate (NEXT_PUBLIC_DEPLOYMENT_URL env) ++ "/billing")%string in
  let logged := [Setup (LEMON_SQUEEZY_API_KEY env);
                 ConsoleLog session redirect variant] in
  let stopped msg :=
    createCheckoutForVariant env session variant embed w
    = (Throw msg, mkWorld (db w) (lemon w) (trace w ++ logged)) in
  match LEMON_SQUEEZY_STORE_ID env with
  | Some storeId =>
      if truthy (Some storeId) then
        if truthy (Some variant) then
          let sent :=
            mkNewCheckout
              (nullish (match session with Some u => email u | None => None end)
                       "undefined")
              (option_map id session) redirect embed in
          createCheckoutForVariant env session variant embed w
          = (Ok (fst (createCheckout storeId variant sent (lemon w))),
             mkWorld (db w)
               (snd (createCheckout storeId variant sent (lemon w)))
               (trace w ++ logged
                ++ [Api (CreateCheckout storeId variant sent)]))
        else stopped (missing_parameter "variantId")
      else
        stopped "Missing required LEMON_SQUEEZY_STORE_ID env variable. Please, set it in your .env file."
  | None =>
      stopped "Missing required LEMON_SQUEEZY_STORE_ID env variable. Please, set it in your .env file."
  end.
Proof.
  intros redirect logged stopped. unfold stopped.
  destruct (LEMON_SQUEEZY_STORE_ID env) as [storeId|] eqn:Hstore;
    [destruct (truthy (Some storeId)) eqn:Hs;
       [destruct (truthy (Some variant)) eqn:Hv|]|];
    cbv beta iota zeta
        delta [createCheckoutForVariant sdkCreateCheckout setupLemonSqueezy
               bind emit api require ret throw];
    fold redirect; rewrite Hstore; cbv beta iota; rewrite ?Hs;
    cbv beta iota; rewrite ?Hv; cbv beta iota; cbn [db lemon trace].
  - match goal with
    | |- context [createCheckout storeId variant ?c ?l] =>
        destruct (createCheckout storeId variant c l) as [r p]
    end.
    cbn [fst snd]. rewrite <- !app_assoc. reflexivity.
  - rewrite <- !app_assoc. reflexivity.
  - rewrite <- !app_assoc. reflexivity.
  - rewrite <- !app_assoc. reflexivity.
Qed.

(** C9, as amended. When [LEMON_SQUEEZY_STORE_ID] is set and the variant id
    is not empty, [createCheckoutForVariant] needs no session: without a user
    it calls [createCheckout] with the e-mail "undefined" and no
    [userIdInDatabase], and returns the provider's answer. *)
Theorem checkout_without_session
    {P : Type} {SDK : Provider P} (env : Env) (variant : string)
    (embed : option bool) (w : World P) :
  truthy (LEMON_SQUEEZY_STORE_ID env) = true ->
  variant <> "" ->
  checks_out_anonymously env variant embed w.
Proof.
  intros Hstore Hvariant.
  pose proof (createCheckoutForVariant_run env None variant embed w) as E.
  cbv zeta in E.
  destruct (LEMON_SQUEEZY_STORE_ID env) as [storeId|]; [|discriminate].
  rewrite Hstore, (proj2 (truthy_Some variant) Hvariant) in E.
  unfold checks_out_anonymously. cbv zeta.
  eexists storeId, _. split; [|split; [|split]].
  - erewrite performed_app by (rewrite E; reflexivity). reflexivity.
  - reflexivity.
  - reflexivity.
  - rewrite E. reflexivity.
Qed.

Lemma checkout_without_session_witness :
  truthy (LEMON_SQUEEZY_STORE_ID Sample.env) = true
  /\ "v1" <> ""
  /\ checks_out_anonymously Sample.env "v1" (Some true) Sample.world.
Proof.
  split; [reflexivity|]. split; [discriminate|].
  apply checkout_without_session; [reflexivity|discriminate].
Defined.

(** With an empty variant id the SDK's check of [createCheckout] throws, and
    no request is sent, whoever asks. *)
Lemma checkout_needs_a_variant
    {P : Type} {SDK : Provider P} (env : Env) (session : option User)
    (embed : option bool) (w : World P) :
  truthy (LEMON_SQUEEZY_STORE_ID env) = true ->
  let m := createCheckoutForVariant env session "" embed in
  fst (m w) = Throw "Please provide the required parameter: variantId."
  /\ existsb is_api (performed m w) = false.
Proof.
  intros Hstore m.
  pose proof (createCheckoutForVariant_run env session "" embed w) as E.
  cbv zeta in E.
  destruct (LEMON_SQUEEZY_STORE_ID env) as [storeId|]; [|discriminate].
  rewrite Hstore in E. cbn [truthy String.eqb negb] in E. fold m in E.
  split; [rewrite E; reflexivity|].
  erewrite performed_app by (rewrite E; reflexivity). reflexivity.
Qed.

(** C9, as stated, fails when the store id is not configured: the request of
    a visitor without session then throws and [createCheckout] is not
    called. *)
Lemma checkout_without_session_needs_store :
  ~ checks_out_anonymously Sample.env_no_store "v1" None Sample.world.
Proof.
  intros (storeId & sent & Hcalls & _).
  vm_compute in Hcalls. discriminate.
Qed.

(** ** Webhooks *)

Lemma hasWebhook_run
    {P : Type} {SDK : Provider P} (env : Env) (w : World P) :
  match LEMON_SQUEEZY_WEBHOOK_URL env with
  | Some u =>
      if truthy (Some u) then
        hasWebhook env w
        = (Ok (found env u (lemon w)),
           mkWorld (db w)
             (snd (listWebhooks (LEMONSQUEEZY_STORE_ID env) (lemon w)))
             (trace w ++ [Setup (LEMON_SQUEEZY_API_KEY env);
                          Api (ListWebhooks (LEMONSQUEEZY_STORE_ID env))]))
      else
        hasWebhook env w
        = (Throw "Missing required WEBHOOK_URL env variable. Please, set it in your .env file.",
           mkWorld (db w) (lemon w)
             (trace w ++ [Setup (LEMON_SQUEEZY_API_KEY env)]))
  | None =>
      hasWebhook env w
      = (Throw "Missing required WEBHOOK_URL env variable. Please, set it in your .env file.",
         mkWorld (db w) (lemon w)
           (trace w ++ [Setup (LEMON_SQUEEZY_API_KEY env)]))
  end.
Proof.
  unfold hasWebhook, found, setupLemonSqueezy, bind, emit, api, require.
  simpl.
  destruct (LEMON_SQUEEZY_WEBHOOK_URL env) as [u|]; simpl; [|reflexivity].
  destruct (negb (u =? "")%string); simpl; [|reflexivity].
  destruct (listWebhooks (LEMONSQUEEZY_STORE_ID env) (lemon w)) as [r p].
  simpl. unfold ret, matching. rewrite <- !app_assoc. reflexivity.
Qed.

(** The run of [createLsWebhook] for an administrator, the webhook URL being
    configured. *)
Lemma createLsWebhook_run
    {P : Type} {SDK : Provider P} (env : Env) (user : User) (u : string)
    (w : World P) :
  role user = "SUPER_ADMIN" ->
  LEMON_SQUEEZY_WEBHOOK_URL env = Some u ->
  u <> "" ->
  let listed := snd (listWebhooks (LEMONSQUEEZY_STORE_ID env) (lemon w)) in
  let looked := [Setup (LEMON_SQUEEZY_API_KEY env);
                 Setup (LEMON_SQUEEZY_API_KEY env);
                 Api (ListWebhooks (LEMONSQUEEZY_STORE_ID env))] in
  let refused :=
    (Throw (A:=unit) (missing_parameter "storeId"),
     mkWorld (db w) listed (trace w ++ looked)) in
  createLsWebhook env user w
  = match found env u (lemon w) with
    | Some _ => (Ok tt, mkWorld (db w) listed (trace w ++ looked))
    | None =>
        match LEMON_SQUEEZY_STORE_ID env with
        | Some store =>
            if truthy (Some store) then
              (Ok tt,
               mkWorld (db w) (snd (createWebhook store (wanted env u) listed))
                 (trace w ++ looked
                  ++ [Api (CreateWebhook store (wanted env u))]))
            else refused
        | None => refused
        end
    end.
Proof.
  intros Hrole Hurl Hu listed looked refused.
  apply truthy_Some in Hu.
  cbv beta iota zeta
      delta [createLsWebhook hasWebhook sdkCreateWebhook found
             setupLemonSqueezy bind emit api require ret throw refused].
  rewrite Hrole, Hurl, String.eqb_refl. cbn [negb]. cbv beta iota.
  rewrite Hu. cbv beta iota. cbn [db lemon trace].
  subst listed.
  destruct (listWebhooks (LEMONSQUEEZY_STORE_ID env) (lemon w)) as [r p].
  cbn [fst snd]. fold (matching u).
  destruct (match payload r with
            | Some whs => find (matching u) whs
            | None => None
            end) as [wh|].
  - rewrite <- !app_assoc. reflexivity.
  - fold (wanted env u).
    destruct (LEMON_SQUEEZY_STORE_ID env) as [store|].
    + destruct (truthy (Some store)); cbn [db lemon trace fst snd].
      * destruct (createWebhook store (wanted env u) p) as [r' p'].
        cbn [db lemon trace fst snd]. rewrite <- !app_assoc. reflexivity.
      * rewrite <- !app_assoc. reflexivity.
    + cbn [db lemon trace fst snd]. rewrite <- !app_assoc. reflexivity.
Qed.



Lemma find_existsb {A : Type} (f : A -> bool) (l : list A) :
  find f l = None -> existsb f l = false.
Proof.
  induction l as [|a l IH]; simpl; [reflexivity|].
  destruct (f a); [discriminate|exact IH].
Qed.


Lemma found_some {P : Type} {SDK : Provider P} (env : Env) (u : string)
    (p : P) (wh : Webhook) :
  found env u p = Some wh ->
  url wh = u /\ test_mode wh = true
  /\ exists whs,
       payload (fst (listWebhooks (LEMONSQUEEZY_STORE_ID env) p)) = Some whs
       /\ In wh whs.
Proof.
  unfold found. intros H.
  destruct (payload (fst (listWebhooks (LEMONSQUEEZY_STORE_ID env) p)))
    as [whs|]; [|discriminate].
  apply find_some in H. destruct H as [Hin Hm].
  unfold matching in Hm. apply andb_prop in Hm. destruct Hm as [Hu Ht].
  apply String.eqb_eq in Hu. eauto.
Qed.





(** ** Configuration *)

(** X19. The guards that are there: without a webhook URL [hasWebhook],
    [getWebhook] and [createLsWebhook] throw before the provider is called,
    and so does [createCheckoutForVariant] without a store id. *)
Lemma missing_configuration_is_reported
    {P : Type} {SDK : Provider P} (env : Env) (w : World P) :
  (truthy (LEMON_SQUEEZY_WEBHOOK_URL env) = false ->
   (throws (hasWebhook env) w
    /\ existsb is_api (performed (hasWebhook env) w) = false)
   /\ (throws (getWebhook env) w
       /\ existsb is_api (performed (getWebhook env) w) = false)
   /\ forall user,
        throws (createLsWebhook env user) w
        /\ existsb is_api (performed (createLsWebhook env user) w) = false)
  /\ (truthy (LEMON_SQUEEZY_STORE_ID env) = false ->
      forall session variant embed,
        throws (createCheckoutForVariant env session variant embed) w
        /\ existsb is_api
             (performed (createCheckoutForVariant env session variant embed) w)
           = false).
Proof.
  split.
  - intros Hurl.
    assert (Eh : hasWebhook env w
                 = (Throw "Missing required WEBHOOK_URL env variable. Please, set it in your .env file.",
                    mkWorld (db w) (lemon w)
                      (trace w ++ [Setup (LEMON_SQUEEZY_API_KEY env)]))).
    { pose proof (hasWebhook_run env w) as E.
      destruct (LEMON_SQUEEZY_WEBHOOK_URL env) as [u|]; [|exact E].
      rewrite Hurl in E. exact E. }
    split; [|split].
    + split; [eexists; rewrite Eh; reflexivity|].
      erewrite performed_app by (rewrite Eh; reflexivity). reflexivity.
    + assert (Eg : getWebhook env w = hasWebhook env w).
      { unfold getWebhook, bind. rewrite Eh. reflexivity. }
      split; [eexists; rewrite Eg, Eh; reflexivity|].
      erewrite performed_app by (rewrite Eg, Eh; reflexivity). reflexivity.
    + intros user.
      assert (Ec : exists msg,
                 createLsWebhook env user w
                 = (Throw msg,
                    mkWorld (db w) (lemon w)
                      (trace w ++ [Setup (LEMON_SQUEEZY_API_KEY env)]))).
      { unfold createLsWebhook, bind, emit.
        destruct (negb (role user =? "SUPER_ADMIN")%string);
          [eexists; reflexivity|].
        rewrite require_throw by exact Hurl. eexists; reflexivity. }
      destruct Ec as [msg Ec].
      split; [exists msg; rewrite Ec; reflexivity|].
      erewrite performed_app by (rewrite Ec; reflexivity). reflexivity.
  - intros Hstore session variant embed.
    pose proof (createCheckoutForVariant_run env session variant embed w) as E.
    cbv zeta in E.
    assert (Ec : createCheckoutForVariant env session variant embed w
                 = (Throw "Missing required LEMON_SQUEEZY_STORE_ID env variable. Please, set it in your .env file.",
                    mkWorld (db w) (lemon w)
                      (trace w
                       ++ [Setup (LEMON_SQUEEZY_API_KEY env);
                           ConsoleLog session
                             (interpolate (NEXT_PUBLIC_DEPLOYMENT_URL env)
                              ++ "/billing")%string variant]))).
    { destruct (LEMON_SQUEEZY_STORE_ID env) as [s|]; [|exact E].
      rewrite Hstore in E. exact E. }
    split; [eexists; rewrite Ec; reflexivity|].
    erewrite performed_app by (rewrite Ec; reflexivity). reflexivity.
Qed.

(** C4. The claim does not hold of [createLsWebhook] for the store id and the
    webhook secret, which the procedure does not check.  For an administrator
    with the webhook URL set: without store id (and secret) the procedure
    first asks the provider for its webhooks and only then fails, in the SDK's
    parameter check of [createWebhook]; without the secret alone it does not
    throw at all and creates the webhook with an undefined secret. *)
Theorem createLsWebhook_does_not_guard_store_and_secret :
  let no_secret :=
    mkEnv (Some "key") (Some "https://app.test/hook") (Some "42") None
          (Some "https://app.test") None in
  (LEMON_SQUEEZY_STORE_ID Sample.env_no_store = None
   /\ fst (createLsWebhook Sample.env_no_store Sample.admin Sample.world)
      = Throw "Please provide the required parameter: storeId."
   /\ filter is_api
        (performed (createLsWebhook Sample.env_no_store Sample.admin)
                   Sample.world)
      = [Api (ListWebhooks None)])
  /\ (LEMON_SQUEEZY_WEBHOOK_SECRET no_secret = None
      /\ fst (createLsWebhook no_secret Sample.admin Sample.world) = Ok tt
      /\ filter is_api
           (performed (createLsWebhook no_secret Sample.admin) Sample.world)
         = [Api (ListWebhooks None);
            Api (CreateWebhook "42"
                   (mkNewWebhook None "https://app.test/hook" true
                      ["subscription_created"; "subscription_expired";
                       "subscription_updated"]))]).
Proof.
  cbv zeta. repeat split.
Qed.

(** ** Answers without data *)

(** The run of [getProductById]: stopped by the SDK's check of the product
    id before any request, or two requests and an answer. *)
Lemma getProductById_run
    {P : Type} {SDK : Provider P} (env : Env) (productId : string)
    (hide : option bool) (w : World P) :
  getProductById env productId hide w
  = if truthy (Some productId) then
      (Ok (mkProductInfo
             (data (fst (getProduct productId (lemon w))))
             (option_map
                (filter (fun v =>
                           if nullish hide false
                           then negb (status v =? "pending")%string
                           else true))
                (payload
                   (fst (listVariants (Some productId)
                           (snd (getProduct productId (lemon w)))))))),
       mkWorld (db w)
         (snd (listVariants (Some productId)
                 (snd (getProduct productId (lemon w)))))
         (trace w
          ++ [Setup (LEMON_SQUEEZY_API_KEY env);
              Api (GetProduct productId);
              Api (ListVariants (Some productId))]))
    else
      (Throw (missing_parameter "productId"),
       mkWorld (db w) (lemon w)
         (trace w ++ [Setup (LEMON_SQUEEZY_API_KEY env)])).
Proof.
  destruct (truthy (Some productId)) eqn:Hp;
    cbv beta iota zeta
        delta [getProductById sdkGetProduct setupLemonSqueezy bind emit api
               require ret throw];
    rewrite Hp; cbv beta iota; cbn [db lemon trace]; [|reflexivity].
  destruct (getProduct productId (lemon w)) as [r1 p1].
  cbn [fst snd db lemon trace].
  destruct (listVariants (Some productId) p1) as [r2 p2].
  cbn [fst snd db lemon trace]. rewrite <- !app_assoc. reflexivity.
Qed.

(** C7, as stated, fails: offline, the provider answers [getProduct] and
    [listVariants] without data, and [getProductById] returns normally, with
    neither product nor variants. *)
Lemma getProductById_returns_without_data :
  no_data (fst (getProduct "7" Sample.offline))
  /\ no_data (fst (listVariants (Some "7") Sample.offline))
  /\ fst (getProductById Sample.env "7" None Sample.world_offline)
     = Ok (mkProductInfo None None)
  /\ ~ throws (getProductById Sample.env "7" None) Sample.world_offline.
Proof.
  repeat split. intros [msg H]. discriminate H.
Qed.

(** C7, as amended. Among the provider-backed procedures it is
    [createPlansFromLemonSqueezyVariants] that throws, with the message
    "Failed to fetch variants from Lemon Squeezy.", when the answer of
    [listVariants] carries no data.  [getProductById], given a product id,
    and [getProductsFromLemonSqueezy] do not throw: on answers without data
    the first returns neither product nor variants and the second returns
    undefined. *)
Theorem missing_data_is_reported_by_plan_creation
    {P : Type} {SDK : Provider P} (env : Env) (w : World P) :
  (forall user schedule,
     role user = "SUPER_ADMIN" ->
     no_data (fst (listVariants None (lemon w))) ->
     fst (createPlansFromLemonSqueezyVariants env user schedule w)
     = Throw "Failed to fetch variants from Lemon Squeezy.")
  /\ (forall productId hide,
        productId <> "" ->
        exists info,
          fst (getProductById env productId hide w) = Ok info
          /\ (no_data (fst (getProduct productId (lemon w))) ->
              pi_product info = None)
          /\ (no_data (fst (listVariants (Some productId)
                              (snd (getProduct productId (lemon w))))) ->
              pi_variants info = None))
  /\ (exists products,
        fst (getProductsFromLemonSqueezy env w) = Ok products
        /\ (no_data (fst (listProducts (lemon w))) -> products = None)).
Proof.
  split; [|split].
  - intros user schedule Hrole Hno.
    unfold createPlansFromLemonSqueezyVariants, setupLemonSqueezy, bind, emit,
      api.
    rewrite Hrole. simpl.
    destruct (listVariants None (lemon w)) as [r p]. simpl in *.
    unfold payload. rewrite Hno. reflexivity.
  - intros productId hide Hid.
    rewrite getProductById_run, (proj2 (truthy_Some productId) Hid).
    eexists. split; [reflexivity|]. cbn [pi_product pi_variants]. split.
    + intros H. exact H.
    + intros H. unfold payload. rewrite H. reflexivity.
  - unfold getProductsFromLemonSqueezy, setupLemonSqueezy, bind, emit, api,
      query, ret. simpl.
    destruct (listProducts (lemon w)) as [r1 p1]. simpl.
    destruct (listVariants None p1) as [r2 p2]. simpl.
    eexists. split; [reflexivity|].
    intros H. unfold payload. rewrite H. reflexivity.
Qed.

Lemma missing_data_is_reported_by_plan_creation_witness :
  role Sample.admin = "SUPER_ADMIN"
  /\ no_data (fst (listVariants None Sample.offline))
  /\ fst (createPlansFromLemonSqueezyVariants Sample.env Sample.admin []
            Sample.world_offline)
     = Throw "Failed to fetch variants from Lemon Squeezy.".
Proof.
  split; [reflexivity|]. split; [reflexivity|].
  destruct (missing_data_is_reported_by_plan_creation
              Sample.env Sample.world_offline) as (H & _ & _).
  apply H; reflexivity.
Defined.

(** ** Usage metering *)

Lemma date_eqb_eq (a b : JsDate) : date_eqb a b = true <-> a = b.
Proof.
  unfold date_eqb. split.
  - intros H. apply andb_prop in H. destruct H as [H H4].
    apply andb_prop in H. destruct H as [H H3].
    apply andb_prop in H. destruct H as [H1 H2].
    apply Z.eqb_eq in H1, H2, H3, H4.
    destruct a, b; simpl in *. congruence.
  - intros ->. now rewrite !Z.eqb_refl.
Qed.

Lemma date_gte_refl (a : JsDate) : date_gte a a = true.
Proof.
  unfold date_gte. rewrite !Z.eqb_refl. apply Z.leb_refl.
Qed.

Lemma date_eqb_gte (a b : JsDate) : date_eqb a b = true -> date_gte a b = true.
Proof.
  intros H. apply date_eqb_eq in H. subst. apply date_gte_refl.
Qed.

(** The first day of the month is not after any of its days. *)
Lemma month_starts_before_today (now : JsDate) :
  1 <= day now -> date_gte (setHours0 now) (setHours0 (setDate1 now)) = true.
Proof.
  intros H. unfold date_gte, setHours0, setDate1. simpl.
  rewrite !Z.eqb_refl.
  destruct (day now =? 1) eqn:E; [reflexivity|].
  apply Z.eqb_neq in E. apply Z.ltb_lt. lia.
Qed.

Lemma fold_left_clicks (rows : list FeatureUsage) (acc : Z) :
  fold_left (fun a usage => a + buttonClicks usage) rows acc
  = acc + clicks rows.
Proof.
  revert acc. unfold clicks.
  induction rows as [|r rows IH]; intros acc; simpl; [lia|].
  rewrite IH. lia.
Qed.

Lemma find_app_skip {A : Type} (f : A -> bool) (before after : list A) :
  (forall x, In x before -> f x = false) ->
  find f (before ++ after) = find f after.
Proof.
  induction before as [|a before IH]; intros H; simpl; [reflexivity|].
  rewrite (H a (or_introl eq_refl)). apply IH.
  intros x Hx. apply H. now right.
Qed.

Lemma getUsageForUser_run {P : Type} {DBMS : Engine} (now : JsDate)
    (user : User) (w : World P) :
  let todayStart := setHours0 now in
  let monthStart := setHours0 (setDate1 now) in
  getUsageForUser now user w
  = (Ok (mkUsageTotals
           (nullish
              (option_map buttonClicks
                 (Prisma.findFirst (where_userId_since (id user) todayStart)
                    (featureUsage (db w))))
              0)
           (clicks (filter (where_userId_since (id user) monthStart)
                           (featureUsage (db w))))),
     mkWorld (db w) (lemon w)
       (trace w ++ [Store (FeatureUsageFindFirst (id user) todayStart);
                    Store (FeatureUsageFindMany (id user) monthStart)])).
Proof.
  unfold getUsageForUser, bind, query, ret, Prisma.findMany. simpl.
  rewrite fold_left_clicks, <- app_assoc. reflexivity.
Qed.

(** C8. [getUsageForUser] reports, for the month, the sum of [buttonClicks]
    over the caller's rows dated on or after the start of the first day of
    the current month.  For today it reports 0 when no row of the caller is
    dated on or after the start of today, and otherwise the [buttonClicks]
    of such a row: of the one there is when there is exactly one, and of the
    one the database returns when several qualify.  This holds whichever
    row the database returns, and nothing in the store changes. *)
Theorem usage_totals {P : Type} {DBMS : Engine} (now : JsDate) (user : User)
    (w : World P) :
  let rows := featureUsage (db w) in
  let todayStart := mkDate (year now) (month now) (day now) 0 in
  let monthStart := mkDate (year now) (month now) 1 0 in
  let mine since r := (userId r =? id user)%string && date_gte (date r) since in
  exists usage,
    fst (getUsageForUser now user w) = Ok usage
    /\ totalButtonClicksThisMonth usage
       = total (map buttonClicks (filter (mine monthStart) rows))
    /\ ((forall r, In r rows -> mine todayStart r = false) ->
        totalButtonClicksToday usage = 0)
    /\ ((exists r, In r rows /\ mine todayStart r = true) ->
        exists r,
          In r rows /\ mine todayStart r = true
          /\ totalButtonClicksToday usage = buttonClicks r)
    /\ (forall r,
          filter (mine todayStart) rows = [r] ->
          totalButtonClicksToday usage = buttonClicks r)
    /\ db (snd (getUsageForUser now user w)) = db w.
Proof.
  intros rows todayStart monthStart mine.
  rewrite getUsageForUser_run. cbv zeta.
  eexists. split; [reflexivity|].
  cbn [fst snd db totalButtonClicksToday totalButtonClicksThisMonth].
  change (where_userId_since (id user) (setHours0 now)) with (mine todayStart).
  change (featureUsage (db w)) with rows.
  split; [reflexivity|]. split; [|split; [|split; [|reflexivity]]].
  - intros Hnone. rewrite (findFirst_none _ _ Hnone). reflexivity.
  - intros (r & Hin & Hr).
    destruct (Prisma.findFirst (mine todayStart) rows) as [x|] eqn:E.
    + destruct (findFirst_some _ _ _ E) as [Hx Hmine].
      exists x. repeat split; assumption.
    + rewrite (findFirst_None _ _ E r Hin) in Hr. discriminate.
  - intros r Hr. rewrite (findFirst_only _ _ _ Hr). reflexivity.
Qed.

Lemma usage_totals_witness :
  let w := snd (spendAll Sample.joe [(Sample.noon, 3); (Sample.evening, 4)]
                  Sample.world) in
  exists usage,
    fst (getUsageForUser (DBMS:=Engines.newest_first)
           Sample.evening Sample.joe w) = Ok usage
    /\ totalButtonClicksThisMonth usage = 7
    /\ totalButtonClicksToday usage = 7.
Proof.
  cbv zeta.
  destruct (usage_totals (DBMS:=Engines.newest_first)
              Sample.evening Sample.joe
              (snd (spendAll Sample.joe
                      [(Sample.noon, 3); (Sample.evening, 4)] Sample.world)))
    as (usage & Hok & Hmonth & _ & _ & Htoday & _).
  exists usage. split; [exact Hok|]. split; [exact Hmonth|].
  apply (Htoday (mkUsage "u2" Sample.today 7)). reflexivity.
Defined.

(** *** The usage rows are written by [spendCredits] alone *)

Section KeepsUsage.

Context {P : Type} {SDK : Provider P}.

Lemma keeps_ret {A : Type} (a : A) : keeps_usage (P:=P) (ret a).
Proof. intros w. reflexivity. Qed.

Lemma keeps_throw {A : Type} (msg : string) :
  keeps_usage (P:=P) (A:=A) (throw msg).
Proof. intros w. reflexivity. Qed.

Lemma keeps_emit (e : Event) : keeps_usage (P:=P) (emit e).
Proof. intros w. reflexivity. Qed.

Lemma keeps_api {A : Type} (c : ApiCall) (f : P -> Response A * P) :
  keeps_usage (api c f).
Proof. intros w. unfold api. destruct (f (lemon w)). reflexivity. Qed.

Lemma keeps_query {A : Type} (q : Query) (f : Db -> A) :
  keeps_usage (P:=P) (query q f).
Proof. intros w. reflexivity. Qed.

Lemma keeps_mutate {A : Type} (q : Query) (f : Db -> A * Db) :
  (forall d, featureUsage (snd (f d)) = featureUsage d) ->
  keeps_usage (P:=P) (mutate q f).
Proof.
  intros H w. unfold mutate. specialize (H (db w)).
  destruct (f (db w)). exact H.
Qed.

Lemma keeps_require (x : option string) (msg : string) :
  keeps_usage (P:=P) (require x msg).
Proof.
  intros w. unfold require. destruct x; [destruct (truthy _)|]; reflexivity.
Qed.

Lemma keeps_bind {A B : Type} (m : M P A) (k : A -> M P B) :
  keeps_usage m -> (forall a, keeps_usage (k a)) -> keeps_usage (bind m k).
Proof.
  intros Hm Hk w. unfold bind. specialize (Hm w).
  destruct (m w) as [[a|msg] w1]; simpl in *; [|exact Hm].
  rewrite Hk. exact Hm.
Qed.

End KeepsUsage.

Create HintDb keeps.
#[export] Hint Resolve keeps_ret keeps_throw keeps_emit keeps_api keeps_query
  keeps_require : keeps.

(** Takes a procedure apart down to its effects. *)
Ltac keeps :=
  repeat first
    [ solve [auto with keeps]
    | apply keeps_bind; [|intros ?]
    | match goal with
      | |- keeps_usage (match ?x with _ => _ end) => destruct x
      | |- keeps_usage (let _ := _ in _) => cbv zeta
      end ].

Section KeepsUsageProcedures.

Context {P : Type} {SDK : Provider P} {DBMS : Engine}.
Variable env : Env.

Lemma keeps_hasWebhook : keeps_usage (hasWebhook env).
Proof. unfold hasWebhook, setupLemonSqueezy. keeps. Qed.

Lemma keeps_findExisting (v : Variant) : keeps_usage (P:=P) (findExisting v).
Proof. unfold findExisting. keeps. Qed.

Lemma keeps_createMissing (v : Variant) :
  keeps_usage (P:=P) (createMissing v).
Proof.
  unfold createMissing. apply keeps_mutate. intros d.
  destruct (Prisma.createPlan (planOf v) (plan d)). reflexivity.
Qed.

Lemma keeps_advance (t : Task) : keeps_usage (P:=P) (advance t).
Proof.
  pose proof keeps_findExisting. pose proof keeps_createMissing.
  destruct t; unfold advance; keeps.
Qed.

Lemma keeps_settle (t : Task) : keeps_usage (P:=P) (settle t).
Proof.
  pose proof keeps_findExisting. pose proof keeps_createMissing.
  destruct t; unfold settle; keeps.
Qed.

Lemma keeps_interleave (schedule : list nat) (ts : list Task) :
  keeps_usage (P:=P) (interleave schedule ts).
Proof.
  revert ts. induction schedule as [|i later IH]; intros ts; simpl.
  - keeps.
  - destruct (nth_error ts i); [|apply IH].
    apply keeps_bind; [apply keeps_advance|intros t'; apply IH].
Qed.

Lemma keeps_settleAll (ts : list Task) : keeps_usage (P:=P) (settleAll ts).
Proof.
  induction ts as [|t ts IH]; simpl; [keeps|].
  apply keeps_bind; [apply keeps_settle|intros r].
  apply keeps_bind; [exact IH|intros rs]. keeps.
Qed.

(** Every procedure but [spendCredits] leaves the usage rows alone. *)
Lemma keeps_router (now : JsDate) (r : Request) :
  (forall user amount, r <> SpendCredits user amount) ->
  keeps_usage (paymentManagementRouter env now r).
Proof.
  intros Hr.
  pose proof keeps_hasWebhook. pose proof keeps_interleave.
  pose proof keeps_settleAll.
  destruct r; unfold paymentManagementRouter, answer;
    try (exfalso; eapply Hr; reflexivity).
  - unfold getSubscriptionByUserId, sdkGetVariant, setupLemonSqueezy. keeps.
  - unfold getProductById, sdkGetProduct, setupLemonSqueezy. keeps.
  - unfold createCheckoutForVariant, sdkCreateCheckout, setupLemonSqueezy.
    keeps.
  - unfold createLsWebhook, sdkCreateWebhook. keeps.
  - unfold getWebhook. keeps.
  - unfold createPlansFromLemonSqueezyVariants, setupLemonSqueezy. keeps.
  - unfold getProductsFromLemonSqueezy, setupLemonSqueezy. keeps.
  - unfold getUsageForUser. keeps.
  - unfold getOneTimePurchasesForUser. keeps.
  - unfold getAllVariants, setupLemonSqueezy. keeps.
Qed.

End KeepsUsageProcedures.

(** *** The upsert *)

Section Upsert.

Variables (A : Type) (where_ : A -> bool) (update : A -> A) (create : A).

Lemma upsert_absent (t : list A) :
  (forall x, In x t -> where_ x = false) ->
  Prisma.upsert where_ update create t = (t ++ [create])%list.
Proof.
  induction t as [|a t IH]; intros H; simpl; [reflexivity|].
  rewrite (H a (or_introl eq_refl)). f_equal. apply IH.
  intros x Hx. apply H. now right.
Qed.

Lemma upsert_present (before : list A) (r : A) (after : list A) :
  (forall x, In x before -> where_ x = false) ->
  where_ r = true ->
  Prisma.upsert where_ update create (before ++ r :: after)
  = (before ++ update r :: after)%list.
Proof.
  induction before as [|a before IH]; intros H Hr; simpl.
  - rewrite Hr. reflexivity.
  - rewrite (H a (or_introl eq_refl)). f_equal. apply IH; [|exact Hr].
    intros x Hx. apply H. now right.
Qed.

(** A table either has a first row under the key or has none. *)
Lemma first_match (t : list A) :
  (forall x, In x t -> where_ x = false)
  \/ exists before r after,
       t = (before ++ r :: after)%list
       /\ (forall x, In x before -> where_ x = false)
       /\ where_ r = true.
Proof.
  induction t as [|a t IH]; [left; intros x []|].
  destruct (where_ a) eqn:Ha.
  - right. exists [], a, t. repeat split; [intros x []|exact Ha].
  - destruct IH as [IH|(before & r & after & -> & Hb & Hr)].
    + left. intros x [<-|Hx]; auto.
    + right. exists (a :: before), r, after. repeat split; [|exact Hr].
      intros x [<-|Hx]; auto.
Qed.

End Upsert.


Lemma where_userId_date_key (user : string) (d : JsDate) (r : FeatureUsage) :
  where_userId_date user d r = true <-> usage_key r = (user, d).
Proof.
  unfold where_userId_date, usage_key. split.
  - intros H. apply andb_prop in H. destruct H as [Hu Hd].
    apply String.eqb_eq in Hu. apply date_eqb_eq in Hd. congruence.
  - intros H. injection H as -> ->.
    rewrite String.eqb_refl. simpl. now apply date_eqb_eq.
Qed.

Lemma upsert_keeps_one_row_per_day (user : string) (d : JsDate) (amount : Z)
    (t : list FeatureUsage) :
  one_row_per_day t ->
  one_row_per_day
    (Prisma.upsert (where_userId_date user d) (increment amount)
       (mkUsage user d amount) t).
Proof.
  unfold one_row_per_day. intros Hone.
  destruct (first_match _ (where_userId_date user d) t)
    as [Hnone|(before & r & after & -> & Hb & Hr)].
  - rewrite upsert_absent by exact Hnone.
    rewrite map_app. simpl.
    apply NoDup_app; [exact Hone|repeat constructor; intros []|].
    intros k Hk [<-|[]].
    apply in_map_iff in Hk. destruct Hk as (x & Hx & Hin).
    apply (proj2 (where_userId_date_key user d x)) in Hx.
    rewrite (Hnone x Hin) in Hx. discriminate.
  - rewrite upsert_present by assumption.
    rewrite map_app in *. exact Hone.
Qed.

(** C2. Every procedure of the router keeps at most one usage row for a user
    and a day.  [spendCredits] adds the amount to the row of the user for the
    start of today when there is one, appends a new row when there is none,
    and every other procedure leaves the usage rows untouched. *)
Theorem one_usage_row_per_user_and_day
    {P : Type} {SDK : Provider P} {DBMS : Engine} (env : Env) (now : JsDate)
    (r : Request) (w : World P) :
  let rows := featureUsage (db w) in
  let rows' := featureUsage (db (snd (paymentManagementRouter env now r w))) in
  (one_row_per_day rows -> one_row_per_day rows')
  /\ match r with
     | SpendCredits user amount =>
         let today := setHours0 now in
         (forall before row after,
            rows = (before ++ row :: after)%list ->
            (forall x, In x before -> usage_key x <> (id user, today)) ->
            usage_key row = (id user, today) ->
            rows' = (before
                     ++ mkUsage (id user) today (buttonClicks row + amount)
                     :: after)%list)
         /\ ((forall x, In x rows -> usage_key x <> (id user, today)) ->
             rows' = (rows ++ [mkUsage (id user) today amount])%list)
     | _ => rows' = rows
     end.
Proof.
  intros rows rows'.
  assert (Hother : (forall user amount, r <> SpendCredits user amount) ->
                   rows' = rows).
  { intros Hr. exact (keeps_router env now r Hr w). }
  destruct r as [| | | | | | |user amount| | |];
    try (rewrite Hother by discriminate; split; [auto|reflexivity]).
  clear Hother.
  assert (E : rows'
              = Prisma.upsert (where_userId_date (id user) (setHours0 now))
                  (increment amount) (mkUsage (id user) (setHours0 now) amount)
                  rows).
  { reflexivity. }
  assert (Hkey : forall x,
             usage_key x <> (id user, setHours0 now) ->
             where_userId_date (id user) (setHours0 now) x = false).
  { intros x Hx.
    destruct (where_userId_date (id user) (setHours0 now) x) eqn:Hw;
      [|reflexivity].
    apply where_userId_date_key in Hw. contradiction. }
  split; [|split].
  - rewrite E. apply upsert_keeps_one_row_per_day.
  - intros before row after Hrows Hbefore Hrow. rewrite E, Hrows.
    rewrite upsert_present.
    + unfold increment. destruct row as [u d c]. simpl in *.
      injection Hrow as -> ->. reflexivity.
    + intros x Hx. apply Hkey. auto.
    + now apply where_userId_date_key.
  - intros Hnone. rewrite E. apply upsert_absent.
    intros x Hx. apply Hkey. auto.
Qed.

Lemma one_usage_row_per_user_and_day_witness :
  let w := snd (spendCredits Sample.noon Sample.joe 3 Sample.world_ahead) in
  let w' :=
    snd (paymentManagementRouter (DBMS:=Engines.newest_first)
           Sample.env Sample.evening (SpendCredits Sample.joe 4) w) in
  one_row_per_day (featureUsage (db w))
  /\ one_row_per_day (featureUsage (db w'))
  /\ featureUsage (db w')
     = [mkUsage "u2" Sample.tomorrow 5; mkUsage "u2" Sample.today 7].
Proof.
  cbv zeta.
  assert (H : one_row_per_day
                (featureUsage
                   (db (snd (spendCredits Sample.noon Sample.joe 3
                               Sample.world_ahead))))).
  { repeat constructor; simpl; intuition discriminate. }
  destruct (one_usage_row_per_user_and_day (DBMS:=Engines.newest_first)
              Sample.env Sample.evening (SpendCredits Sample.joe 4)
              (snd (spendCredits Sample.noon Sample.joe 3 Sample.world_ahead)))
    as (Hone & Hrow & _).
  split; [exact H|]. split; [exact (Hone H)|].
  apply (Hrow [mkUsage "u2" Sample.tomorrow 5] (mkUsage "u2" Sample.today 3) []).
  - reflexivity.
  - intros x [<-|[]]. discriminate.
  - reflexivity.
Defined.

(** *** Repeated spending *)







(** ** Plans *)

Lemma find_app_miss {A : Type} (f : A -> bool) (t : list A) (x : A) :
  f x = false -> find f (t ++ [x]) = find f t.
Proof.
  intros H. induction t as [|a t IH]; simpl; [now rewrite H|].
  destruct (f a); [reflexivity|exact IH].
Qed.

Lemma find_app_none {A : Type} (f : A -> bool) (t c : list A) :
  find f (t ++ c) = None -> find f t = None /\ find f c = None.
Proof.
  induction t as [|a t IH]; simpl; [auto|].
  destruct (f a); [discriminate|exact IH].
Qed.

Lemma missing_find (t : list Plan) (v : Variant) :
  missing t v = true <-> find (where_variant (v_id v)) t = None.
Proof.
  unfold missing. split.
  - intros H. apply negb_true_iff in H.
    destruct (find (where_variant (v_id v)) t) as [row|] eqn:E; [|reflexivity].
    apply find_some in E. destruct E as [Hin Hrow].
    assert (existsb (where_variant (v_id v)) t = true)
      by (apply existsb_exists; eauto).
    congruence.
  - intros H. apply negb_true_iff. now apply find_existsb.
Qed.

Lemma planFor_missing (t : list Plan) (v : Variant) :
  missing t v = true -> planFor t v = planOf v.
Proof.
  intros H. apply missing_find in H. unfold planFor. now rewrite H.
Qed.

Lemma where_variant_planOf (k : string) (v : Variant) :
  where_variant k (planOf v) = (v_id v =? k)%string.
Proof. reflexivity. Qed.

Lemma createPlan_fresh (v : Variant) (t : list Plan) :
  find (where_variant (v_id v)) t = None ->
  Prisma.createPlan (planOf v) t = (Ok (planOf v), (t ++ [planOf v])%list).
Proof.
  intros H. unfold Prisma.createPlan.
  change (fun p => (lemonSqueezyVariantId p
                    =? lemonSqueezyVariantId (planOf v))%string)
    with (where_variant (v_id v)).
  now rewrite (find_existsb _ _ H).
Qed.

Lemma all_Ok (rows : list Plan) : all (map Ok rows) = Ok rows.
Proof.
  induction rows as [|r rows IH]; simpl; [reflexivity|]. now rewrite IH.
Qed.

Lemma NoDup_map_filter {A B : Type} (f : A -> B) (g : A -> bool) (l : list A) :
  NoDup (map f l) -> NoDup (map f (filter g l)).
Proof.
  induction l as [|a l IH]; simpl; intros H; [constructor|].
  inversion H as [|x xs Hnot Hrest]; subst.
  destruct (g a); simpl; [|auto].
  constructor; [|auto].
  intros Hin. apply Hnot. apply in_map_iff in Hin.
  destruct Hin as (x & Hx & Hf). apply filter_In in Hf.
  apply in_map_iff. exists x. tauto.
Qed.

(** One task changes state; the others, whose variants have other ids,
    stand as they stood. *)
Lemma Forall2_replace {R : Variant -> Task -> Prop} (vs : list Variant) :
  NoDup (map v_id vs) ->
  forall (ts : list Task) (i : nat) (k : Task),
    Forall2 R vs ts ->
    nth_error ts i = Some k ->
    exists v,
      In v vs /\ R v k
      /\ forall (R' : Variant -> Task -> Prop) k',
           R' v k' ->
           (forall u j, v_id u <> v_id v -> R u j -> R' u j) ->
           Forall2 R' vs (replace i k' ts).
Proof.
  induction vs as [|v0 vs IH]; intros Hnd ts i k Hall Hnth.
  - inversion Hall; subst. destruct i; discriminate.
  - inversion Hall as [|? k0 ? ts0 Hhead Htail]; subst.
    simpl in Hnd. inversion Hnd as [|? ? Hnot Hnd']; subst.
    assert (Hother : forall u, In u vs -> v_id u <> v_id v0).
    { intros u Hu Heq. apply Hnot. rewrite <- Heq. now apply in_map. }
    destruct i as [|i]; simpl in Hnth.
    + injection Hnth as ->. exists v0. split; [now left|]. split; [exact Hhead|].
      intros R' k' Hk' Hrest. simpl. constructor; [exact Hk'|].
      clear - Htail Hrest Hother.
      induction Htail as [|u j vs ts Huj _ IHt]; constructor.
      * apply Hrest; [apply Hother; now left|exact Huj].
      * apply IHt. intros u' Hu'. apply Hother. now right.
    + destruct (IH Hnd' ts0 i k Htail Hnth) as (v & Hin & Hv & Hstep).
      exists v. split; [now right|]. split; [exact Hv|].
      intros R' k' Hk' Hrest. simpl. constructor.
      * apply Hrest; [|exact Hhead].
        intros Heq. exact (Hother v Hin (eq_sym Heq)).
      * apply Hstep; assumption.
Qed.

Section PlanCreation.

Context {P : Type} {SDK : Provider P}.

(** The plan table at the start and the variants the provider returned. *)
Variable t0 : list Plan.
Variable vs : list Variant.

Lemma undisturbed_task (v u : Variant) (w w' : World P) (j : Task) :
  undisturbed v w w' ->
  v_id u <> v_id v ->
  task_ok t0 (plan (db w)) u j -> task_ok t0 (plan (db w')) u j.
Proof.
  intros [_ Hfind] Hne. specialize (Hfind (v_id u) Hne).
  destruct j; simpl; try rewrite Hfind; auto.
Qed.

Lemma findExisting_run (v : Variant) (w : World P) :
  findExisting v w
  = (Ok (find (where_variant (v_id v)) (plan (db w))),
     mkWorld (db w) (lemon w)
       (trace w ++ [Store (PlanFindUnique (v_id v))])).
Proof. reflexivity. Qed.

(** Creating the row of a variant that has none in the table. *)
Lemma createMissing_run (v : Variant) (w : World P) :
  In v vs ->
  grown t0 vs w ->
  find (where_variant (v_id v)) (plan (db w)) = None ->
  exists w',
    createMissing v w = (Ok (Ok (planOf v)), w')
    /\ grown t0 vs w'
    /\ planFor t0 v = planOf v
    /\ find (where_variant (v_id v)) (plan (db w')) = Some (planOf v)
    /\ undisturbed v w w'.
Proof.
  intros Hin (c & Htab & Hnd & Hrows) Hnone.
  unfold createMissing, mutate.
  rewrite (createPlan_fresh v _ Hnone).
  eexists. split; [reflexivity|]. simpl.
  rewrite Htab in Hnone. destruct (find_app_none _ _ _ Hnone) as [Hn0 Hnc].
  assert (Hmiss : missing t0 v = true) by now apply missing_find.
  split; [|split; [|split]].
  - exists (c ++ [planOf v])%list. split; [now rewrite Htab, app_assoc|].
    split.
    + rewrite map_app. apply NoDup_app; [exact Hnd| |].
      * repeat constructor. intros [].
      * intros k Hk [<-|[]]. apply in_map_iff in Hk.
        destruct Hk as (row & Hkey & Hrow).
        pose proof (find_none _ _ Hnc row Hrow) as Hw.
        unfold where_variant in Hw. simpl in Hkey.
        rewrite Hkey, String.eqb_refl in Hw. discriminate.
    + intros row Hrow. apply in_app_or in Hrow.
      destruct Hrow as [Hrow|[<-|[]]]; [auto|eauto].
  - now apply planFor_missing.
  - rewrite Htab, <- app_assoc, find_app_skip.
    + rewrite find_app_skip; [|exact (find_none _ _ Hnc)].
      simpl. rewrite where_variant_planOf, String.eqb_refl. reflexivity.
    + exact (find_none _ _ Hn0).
  - split; [reflexivity|]. intros k Hk. simpl.
    apply find_app_miss. rewrite where_variant_planOf.
    apply String.eqb_neq. congruence.
Qed.

(** A step of a task keeps the invariant. *)
Lemma advance_ok (v : Variant) (k : Task) (w : World P) :
  In v vs ->
  grown t0 vs w ->
  task_ok t0 (plan (db w)) v k ->
  exists k' w',
    advance k w = (Ok k', w')
    /\ grown t0 vs w'
    /\ task_ok t0 (plan (db w')) v k'
    /\ undisturbed v w w'.
Proof.
  intros Hin Hgrown Hk.
  destruct k as [v'|v'|row|msg]; simpl in Hk; [| | |contradiction].
  - destruct Hk as [-> Hsame].
    unfold advance, bind. rewrite findExisting_run.
    destruct (find (where_variant (v_id v)) (plan (db w))) as [row|] eqn:E.
    + eexists _, _. split; [reflexivity|]. simpl.
      split; [exact Hgrown|]. split; [|split; [reflexivity|auto]].
      split; [|exact E]. unfold planFor. now rewrite <- Hsame.
    + eexists _, _. split; [reflexivity|]. simpl.
      split; [exact Hgrown|]. split; [|split; [reflexivity|auto]].
      split; [reflexivity|exact E].
  - destruct Hk as [-> Hnone].
    destruct (createMissing_run v w Hin Hgrown Hnone)
      as (w' & Hrun & Hg' & Hfor & Hfind & Hund).
    unfold advance, bind. rewrite Hrun.
    eexists _, _. split; [reflexivity|].
    split; [exact Hg'|]. split; [|exact Hund].
    simpl. split; [now rewrite Hfor|exact Hfind].
  - eexists _, _. split; [reflexivity|].
    split; [exact Hgrown|]. split; [exact Hk|]. split; auto.
Qed.

(** Running a task to its end keeps the invariant and yields the plan of
    its variant. *)
Lemma settle_ok (v : Variant) (k : Task) (w : World P) :
  In v vs ->
  grown t0 vs w ->
  task_ok t0 (plan (db w)) v k ->
  exists w',
    settle k w = (Ok (Ok (planFor t0 v)), w')
    /\ grown t0 vs w'
    /\ find (where_variant (v_id v)) (plan (db w')) = Some (planFor t0 v)
    /\ undisturbed v w w'.
Proof.
  intros Hin Hgrown Hk.
  destruct k as [v'|v'|row|msg]; simpl in Hk; [| | |contradiction].
  - destruct Hk as [-> Hsame].
    unfold settle, bind. rewrite findExisting_run.
    destruct (find (where_variant (v_id v)) (plan (db w))) as [row|] eqn:E.
    + assert (Hrow : row = planFor t0 v)
        by (unfold planFor; now rewrite <- Hsame).
      subst row. eexists. split; [reflexivity|]. simpl.
      split; [exact Hgrown|]. split; [exact E|]. split; auto.
    + set (w1 := mkWorld (db w) (lemon w)
                   (trace w ++ [Store (PlanFindUnique (v_id v))])).
      destruct (createMissing_run v w1 Hin Hgrown E)
        as (w' & Hrun & Hg' & Hfor & Hfind & Hund).
      rewrite Hrun, Hfor. eexists. split; [reflexivity|].
      split; [exact Hg'|]. split; [exact Hfind|exact Hund].
  - destruct Hk as [-> Hnone].
    destruct (createMissing_run v w Hin Hgrown Hnone)
      as (w' & Hrun & Hg' & Hfor & Hfind & Hund).
    unfold settle. rewrite Hrun, Hfor. eexists. split; [reflexivity|].
    split; [exact Hg'|]. split; [exact Hfind|exact Hund].
  - destruct Hk as [-> Hfind].
    eexists. split; [reflexivity|].
    split; [exact Hgrown|]. split; [exact Hfind|]. split; auto.
Qed.

Hypothesis distinct : NoDup (map v_id vs).

(** Whatever the schedule, the tasks stay in step with the table. *)
Lemma interleave_ok (schedule : list nat) :
  forall (ts : list Task) (w : World P),
    grown t0 vs w ->
    Forall2 (task_ok t0 (plan (db w))) vs ts ->
    exists ts' w',
      interleave schedule ts w = (Ok ts', w')
      /\ grown t0 vs w'
      /\ Forall2 (task_ok t0 (plan (db w'))) vs ts'
      /\ lemon w' = lemon w.
Proof.
  induction schedule as [|i later IH]; intros ts w Hgrown Hall; simpl.
  - eexists _, _. split; [reflexivity|]. auto.
  - destruct (nth_error ts i) as [k|] eqn:Hnth; [|now apply IH].
    destruct (Forall2_replace (R:=task_ok t0 (plan (db w))) vs distinct
                ts i k Hall Hnth) as (v & Hin & Hk & Hstep).
    destruct (advance_ok v k w Hin Hgrown Hk)
      as (k' & w1 & Hrun & Hg1 & Hk' & Hund).
    unfold bind. rewrite Hrun.
    destruct (IH (replace i k' ts) w1 Hg1) as (ts' & w' & Hrun' & H').
    { apply Hstep; [exact Hk'|].
      intros u j Hne. now apply (undisturbed_task v u w w1). }
    exists ts', w'. split; [exact Hrun'|].
    destruct H' as (Hg' & Hall' & Hl'). repeat split; try assumption.
    destruct Hund as [Hl _]. congruence.
Qed.

(** Finishing the tasks from left to right yields the plan of every
    variant. *)
Lemma settleAll_ok (us : list Variant) :
  forall (ts : list Task) (w : World P),
    incl us vs ->
    NoDup (map v_id us) ->
    grown t0 vs w ->
    Forall2 (task_ok t0 (plan (db w))) us ts ->
    exists w',
      settleAll ts w = (Ok (map (fun v => Ok (planFor t0 v)) us), w')
      /\ grown t0 vs w'
      /\ (forall v, In v us ->
            find (where_variant (v_id v)) (plan (db w'))
            = Some (planFor t0 v))
      /\ lemon w' = lemon w
      /\ (forall k, (forall v, In v us -> k <> v_id v) ->
            find (where_variant k) (plan (db w'))
            = find (where_variant k) (plan (db w))).
Proof.
  induction us as [|v us IH]; intros ts w Hincl Hnd Hgrown Hall.
  - inversion Hall; subst. simpl. eexists. split; [reflexivity|].
    repeat split; auto. intros v [].
  - inversion Hall as [|? k ? ts' Hk Htail]; subst.
    simpl in Hnd. inversion Hnd as [|? ? Hnot Hnd']; subst.
    assert (Hother : forall u, In u us -> v_id u <> v_id v).
    { intros u Hu Heq. apply Hnot. rewrite <- Heq. now apply in_map. }
    destruct (settle_ok v k w (Hincl v (or_introl eq_refl)) Hgrown Hk)
      as (w1 & Hrun & Hg1 & Hfind & Hund).
    destruct (IH ts' w1) as (w' & Hrun' & Hg' & Hfind' & Hl' & Hrest').
    { intros u Hu. apply Hincl. now right. }
    { exact Hnd'. }
    { exact Hg1. }
    { clear - Htail Hund Hother.
      induction Htail as [|u j us ts Huj _ IHt]; constructor.
      - apply (undisturbed_task v u w w1); [exact Hund| |exact Huj].
        apply Hother. now left.
      - apply IHt. intros u' Hu'. apply Hother. now right. }
    exists w'. simpl. unfold bind. rewrite Hrun, Hrun'.
    split; [reflexivity|]. split; [exact Hg'|].
    destruct Hund as [Hl Hkeep]. split; [|split].
    + intros u [<-|Hu]; [|now apply Hfind'].
      rewrite Hrest'; [exact Hfind|].
      intros u Hu Heq. exact (Hother u Hu (eq_sym Heq)).
    + congruence.
    + intros key Hkey. rewrite Hrest'.
      * apply Hkeep. apply Hkey. now left.
      * intros u Hu. apply Hkey. now right.
Qed.

(** [Promise.all] over the tasks, under any schedule. *)
Lemma promise_all_ok (schedule : list nat) (w : World P) :
  plan (db w) = t0 ->
  exists ts w1 w',
    interleave schedule (map Pending vs) w = (Ok ts, w1)
    /\ settleAll ts w1 = (Ok (map (fun v => Ok (planFor t0 v)) vs), w')
    /\ grown t0 vs w'
    /\ (forall v, In v vs ->
          find (where_variant (v_id v)) (plan (db w'))
          = Some (planFor t0 v))
    /\ lemon w' = lemon w.
Proof.
  intros Htab.
  assert (Hgrown : grown t0 vs w).
  { exists []. split; [now rewrite app_nil_r|].
    split; [constructor|intros row []]. }
  assert (Hall : Forall2 (task_ok t0 (plan (db w))) vs (map Pending vs)).
  { rewrite Htab. clear. induction vs as [|v l IH]; constructor; simpl; auto. }
  destruct (interleave_ok schedule _ w Hgrown Hall)
    as (ts & w1 & Hrun & Hg1 & Hall1 & Hl1).
  destruct (settleAll_ok vs ts w1 (incl_refl vs) distinct Hg1 Hall1)
    as (w' & Hrun' & Hg' & Hfind' & Hl' & _).
  exists ts, w1, w'. repeat split; try assumption. congruence.
Qed.

(** The rows that were added are the plans of the variants that had none,
    each once. *)
Lemma created_rows (c : list Plan) :
  created_from t0 vs c ->
  (forall v, In v vs ->
     find (where_variant (v_id v)) (t0 ++ c) = Some (planFor t0 v)) ->
  Permutation c (map planOf (filter (missing t0) vs)).
Proof.
  intros [Hnd Hrows] Hfind.
  apply NoDup_Permutation.
  - exact (NoDup_map_inv _ _ Hnd).
  - apply (NoDup_map_inv lemonSqueezyVariantId).
    rewrite map_map. simpl. now apply NoDup_map_filter.
  - intros row. split.
    + intros Hrow. destruct (Hrows row Hrow) as (v & Hv & Hmiss & ->).
      apply in_map. apply filter_In. auto.
    + intros Hrow. apply in_map_iff in Hrow.
      destruct Hrow as (v & <- & Hv). apply filter_In in Hv.
      destruct Hv as [Hv Hmiss]. specialize (Hfind v Hv).
      rewrite (planFor_missing _ _ Hmiss) in Hfind.
      rewrite find_app_skip in Hfind.
      * apply find_some in Hfind. tauto.
      * apply find_none. now apply missing_find.
Qed.

End PlanCreation.

Lemma bind_ok {P A B : Type} (m : M P A) (k : A -> M P B) (w w' : World P)
    (a : A) :
  m w = (Ok a, w') -> bind m k w = k a w'.
Proof. intros H. unfold bind. now rewrite H. Qed.

(** The run of [createPlansFromLemonSqueezyVariants] for an administrator,
    the provider having returned variants with distinct ids. *)
Lemma createPlans_run
    {P : Type} {SDK : Provider P} (env : Env) (user : User)
    (schedule : list nat) (w : World P) (vs : list Variant) :
  role user = "SUPER_ADMIN" ->
  payload (fst (listVariants None (lemon w))) = Some vs ->
  NoDup (map v_id vs) ->
  exists w' c,
    createPlansFromLemonSqueezyVariants env user schedule w
    = (Ok (map (planFor (plan (db w))) vs), w')
    /\ plan (db w') = (plan (db w) ++ c)%list
    /\ Permutation c (map planOf (filter (missing (plan (db w))) vs))
    /\ (forall v, In v vs ->
          find (where_variant (v_id v)) (plan (db w'))
          = Some (planFor (plan (db w)) v))
    /\ lemon w' = snd (listVariants None (lemon w)).
Proof.
  intros Hrole Hvs Hnd.
  unfold createPlansFromLemonSqueezyVariants. rewrite Hrole, String.eqb_refl.
  cbn [negb]. unfold setupLemonSqueezy.
  unfold bind at 1. unfold emit at 1. unfold bind at 1. unfold api at 1.
  cbn [lemon db trace].
  destruct (listVariants None (lemon w)) as [r p] eqn:Hlist.
  simpl in Hvs. rewrite Hvs.
  set (w0 := mkWorld (db w) p _).
  destruct (promise_all_ok (plan (db w)) vs Hnd schedule w0 eq_refl)
    as (ts & w1 & w' & Hrun & Hsettle & (c & Htab & Hc) & Hfind & Hl).
  rewrite (bind_ok _ _ w0 w1 ts Hrun).
  rewrite (bind_ok _ _ w1 w' _ Hsettle).
  rewrite <- (map_map (planFor (plan (db w))) Ok), all_Ok.
  exists w', c. split; [reflexivity|]. split; [exact Htab|].
  split; [|split; [exact Hfind|exact Hl]].
  apply (created_rows (plan (db w)) vs Hnd c Hc).
  rewrite <- Htab. exact Hfind.
Qed.

Lemma Forall2_map_r {A B : Type} (R : A -> B -> Prop) (f : A -> B)
    (l : list A) :
  (forall a, In a l -> R a (f a)) -> Forall2 R l (map f l).
Proof.
  induction l as [|a l IH]; intros H; simpl; constructor.
  - apply H. now left.
  - apply IH. intros x Hx. apply H. now right.
Qed.

(** C5. Let the provider return variants with distinct ids.  Under every
    interleaving of the lookups and inserts,
    [createPlansFromLemonSqueezyVariants] returns one plan per variant, in
    order: the row that already had the variant's id when there was one, and
    otherwise a new row with the variant's id and name.  The plan table grows
    by exactly one row for each variant that had none, and by nothing else;
    a second run on the same variants returns the same plans and creates no
    row. *)
Theorem plans_are_created_once
    {P : Type} {SDK : Provider P} (env : Env) (user : User)
    (schedule : list nat) (w : World P) (vs : list Variant) :
  role user = "SUPER_ADMIN" ->
  payload (fst (listVariants None (lemon w))) = Some vs ->
  NoDup (map v_id vs) ->
  let t := plan (db w) in
  let m := createPlansFromLemonSqueezyVariants env user in
  let existing v := find (fun p => (lemonSqueezyVariantId p =? v_id v)%string) t in
  exists plans created,
    fst (m schedule w) = Ok plans
    /\ plan (db (snd (m schedule w))) = (t ++ created)%list
    /\ Forall2
         (fun v p =>
            match existing v with
            | Some row => p = row
            | None => p = mkPlan (v_id v) (v_name v)
            end)
         vs plans
    /\ Permutation created
         (map (fun v => mkPlan (v_id v) (v_name v))
              (filter (fun v => match existing v with
                                | Some _ => false
                                | None => true
                                end) vs))
    /\ forall schedule' w2,
         plan (db w2) = (t ++ created)%list ->
         payload (fst (listVariants None (lemon w2))) = Some vs ->
         fst (m schedule' w2) = Ok plans
         /\ plan (db (snd (m schedule' w2))) = (t ++ created)%list.
Proof.
  intros Hrole Hvs Hnd t m existing.
  destruct (createPlans_run env user schedule w vs Hrole Hvs Hnd)
    as (w' & c & Hrun & Htab & Hperm & Hfind & _).
  fold t in Hrun, Htab, Hperm, Hfind.
  exists (map (planFor t) vs), c. unfold m. rewrite Hrun. simpl.
  split; [reflexivity|]. split; [exact Htab|]. split; [|split].
  - apply Forall2_map_r. intros v _. unfold planFor, existing.
    change (fun p => (lemonSqueezyVariantId p =? v_id v)%string)
      with (where_variant (v_id v)).
    destruct (find (where_variant (v_id v)) t); reflexivity.
  - erewrite filter_ext; [exact Hperm|].
    intros v. unfold existing.
    change (fun p => (lemonSqueezyVariantId p =? v_id v)%string)
      with (where_variant (v_id v)).
    destruct (find (where_variant (v_id v)) t) as [row|] eqn:E.
    + symmetry. apply not_true_is_false. intros Hm.
      apply missing_find in Hm. congruence.
    + symmetry. now apply missing_find.
  - intros schedule' w2 Htab2 Hvs2.
    destruct (createPlans_run env user schedule' w2 vs Hrole Hvs2 Hnd)
      as (w3 & c2 & Hrun2 & Htab3 & Hperm2 & _).
    rewrite Htab2, <- Htab in Hrun2, Htab3, Hperm2.
    assert (Hnone : filter (missing (plan (db w'))) vs = []).
    { clear - Hfind. induction vs as [|v l IH]; simpl; [reflexivity|].
      assert (Hv : missing (plan (db w')) v = false).
      { apply not_true_is_false. intros Hm. apply missing_find in Hm.
        rewrite (Hfind v (or_introl eq_refl)) in Hm. discriminate. }
      rewrite Hv. apply IH. intros u Hu. apply Hfind. now right. }
    rewrite Hnone in Hperm2. apply Permutation_sym, Permutation_nil in Hperm2.
    subst c2. rewrite app_nil_r in Htab3.
    rewrite Hrun2. simpl. split; [|now rewrite <- Htab].
    f_equal. apply map_ext_in. intros v Hv.
    unfold planFor at 1. now rewrite (Hfind v Hv).
Qed.

Lemma plans_are_created_once_witness :
  let m := createPlansFromLemonSqueezyVariants Sample.env Sample.admin in
  let w := Sample.world_with_plan in
  let w' := snd (m [1%nat; 0%nat; 1%nat] w) in
  NoDup (map v_id [Sample.pro; Sample.basic])
  /\ fst (m [1%nat; 0%nat; 1%nat] w)
     = Ok [mkPlan "v1" "Pro (renamed)"; mkPlan "v2" "Basic"]
  /\ plan (db w') = [mkPlan "v1" "Pro (renamed)"; mkPlan "v2" "Basic"]
  /\ fst (m [0%nat; 1%nat] w')
     = Ok [mkPlan "v1" "Pro (renamed)"; mkPlan "v2" "Basic"]
  /\ plan (db (snd (m [0%nat; 1%nat] w'))) = plan (db w').
Proof.
  cbv zeta.
  assert (Hnd : NoDup (map v_id [Sample.pro; Sample.basic])).
  { repeat constructor; simpl; intuition discriminate. }
  assert (Hvs : payload (fst (listVariants None
                                (lemon Sample.world_with_plan)))
                = Some [Sample.pro; Sample.basic]) by reflexivity.
  destruct (plans_are_created_once Sample.env Sample.admin
              [1%nat; 0%nat; 1%nat] Sample.world_with_plan
              [Sample.pro; Sample.basic] eq_refl Hvs Hnd)
    as (plans & created & Hok & Htab & _ & _ & Hagain).
  split; [exact Hnd|]. split; [reflexivity|]. split; [reflexivity|].
  assert (Hplans : plans = [mkPlan "v1" "Pro (renamed)"; mkPlan "v2" "Basic"]).
  { vm_compute in Hok. congruence. }
  rewrite <- Hplans.
  destruct (Hagain [0%nat; 1%nat]
              (snd (createPlansFromLemonSqueezyVariants Sample.env Sample.admin
                      [1%nat; 0%nat; 1%nat] Sample.world_with_plan)))
    as [Hok2 Htab2].
  - exact Htab.
  - reflexivity.
  - split; [exact Hok2|]. rewrite Htab2, Htab. reflexivity.
Defined.

(** The ids have to be distinct: given the same variant twice, the schedule
    that serves both lookups before the first insert has the second insert
    refused by the unique key, and the procedure throws. *)
Lemma same_variant_twice_is_refused :
  fst (createPlansFromLemonSqueezyVariants Sample.env Sample.admin
         [0%nat; 1%nat]
         (mkWorld Sample.empty
            (mkAccount true [] [Sample.pro; Sample.pro] []) []))
  = Throw Prisma.unique_violation.
Proof. reflexivity. Qed.

(** ** What the procedures leave in place *)

Section Respects.

Context {P : Type} {SDK : Provider P}.
Variable R : World P -> World P -> Prop.
Hypothesis R_refl : forall w, R w w.
Hypothesis R_trans : forall w1 w2 w3, R w1 w2 -> R w2 w3 -> R w1 w3.

Lemma respects_ret {A : Type} (a : A) : respects R (ret a).
Proof. intros w. apply R_refl. Qed.

Lemma respects_throw {A : Type} (msg : string) :
  respects R (throw (A:=A) msg).
Proof. intros w. apply R_refl. Qed.

Lemma respects_require (x : option string) (msg : string) :
  respects R (require x msg).
Proof.
  intros w. unfold require.
  destruct x; [destruct (truthy _)|]; apply R_refl.
Qed.

Lemma respects_bind {A B : Type} (m : M P A) (k : A -> M P B) :
  respects R m -> (forall a, respects R (k a)) -> respects R (bind m k).
Proof.
  intros Hm Hk w. unfold bind. specialize (Hm w).
  destruct (m w) as [[a|msg] w1]; simpl in *; [|exact Hm].
  exact (R_trans _ _ _ Hm (Hk a w1)).
Qed.

(** The tasks of plan creation respect what their two store operations
    respect. *)
Hypothesis R_find : forall v, respects R (findExisting (P:=P) v).
Hypothesis R_create : forall v, respects R (createMissing (P:=P) v).

Lemma respects_advance (t : Task) : respects R (advance t).
Proof.
  destruct t; unfold advance.
  - apply respects_bind; [apply R_find|].
    intros [row|]; apply respects_ret.
  - apply respects_bind; [apply R_create|].
    intros [row|msg]; apply respects_ret.
  - apply respects_ret.
  - apply respects_ret.
Qed.

Lemma respects_settle (t : Task) : respects R (settle t).
Proof.
  destruct t; unfold settle.
  - apply respects_bind; [apply R_find|].
    intros [row|]; [apply respects_ret|apply R_create].
  - apply R_create.
  - apply respects_ret.
  - apply respects_ret.
Qed.

Lemma respects_interleave (schedule : list nat) (ts : list Task) :
  respects R (interleave schedule ts).
Proof.
  revert ts. induction schedule as [|i later IH]; intros ts; simpl.
  - apply respects_ret.
  - destruct (nth_error ts i); [|apply IH].
    apply respects_bind; [apply respects_advance|intros t'; apply IH].
Qed.

Lemma respects_settleAll (ts : list Task) : respects R (settleAll ts).
Proof.
  induction ts as [|t ts IH]; simpl; [apply respects_ret|].
  apply respects_bind; [apply respects_settle|intros r].
  apply respects_bind; [exact IH|intros rs; apply respects_ret].
Qed.

End Respects.

(** The relations are preorders. *)
Lemma only_emits_refl {P : Type} (ok : Event -> bool) (w : World P) :
  only_emits ok w w.
Proof. exists []. split; [now rewrite app_nil_r|reflexivity]. Qed.

Lemma only_emits_trans {P : Type} (ok : Event -> bool) (w1 w2 w3 : World P) :
  only_emits ok w1 w2 -> only_emits ok w2 w3 -> only_emits ok w1 w3.
Proof.
  intros (e1 & H1 & Hok1) (e2 & H2 & Hok2). exists (e1 ++ e2)%list.
  split; [now rewrite H2, H1, app_assoc|].
  rewrite forallb_app, Hok1, Hok2. reflexivity.
Qed.

Lemma same_but_plans_trans {P : Type} (w1 w2 w3 : World P) :
  same_but_plans w1 w2 -> same_but_plans w2 w3 -> same_but_plans w1 w3.
Proof.
  unfold same_but_plans. intros (A1 & B1 & C1) (A2 & B2 & C2).
  repeat split; congruence.
Qed.

Lemma same_store_trans {P : Type} (w1 w2 w3 : World P) :
  same_store w1 w2 -> same_store w2 w3 -> same_store w1 w3.
Proof. unfold same_store. congruence. Qed.

Lemma same_provider_trans {P : Type} (w1 w2 w3 : World P) :
  same_provider w1 w2 -> same_provider w2 w3 -> same_provider w1 w3.
Proof. unfold same_provider. congruence. Qed.

(** The effects, one by one. *)
Lemma emit_only_emits {P : Type} (ok : Event -> bool) (e : Event) :
  ok e = true -> respects (P:=P) (only_emits ok) (emit e).
Proof.
  intros H w. exists [e]. split; [reflexivity|]. simpl. now rewrite H.
Qed.

Lemma api_only_emits {P A : Type} (ok : Event -> bool) (c : ApiCall)
    (f : P -> Response A * P) :
  ok (Api c) = true -> respects (only_emits ok) (api c f).
Proof.
  intros H w. unfold api. destruct (f (lemon w)).
  exists [Api c]. split; [reflexivity|]. simpl. now rewrite H.
Qed.

Lemma query_only_emits {P A : Type} (ok : Event -> bool) (q : Query)
    (f : Db -> A) :
  ok (Store q) = true -> respects (P:=P) (only_emits ok) (query q f).
Proof.
  intros H w. exists [Store q]. split; [reflexivity|]. simpl. now rewrite H.
Qed.

Lemma mutate_only_emits {P A : Type} (ok : Event -> bool) (q : Query)
    (f : Db -> A * Db) :
  ok (Store q) = true -> respects (P:=P) (only_emits ok) (mutate q f).
Proof.
  intros H w. unfold mutate. destruct (f (db w)).
  exists [Store q]. split; [reflexivity|]. simpl. now rewrite H.
Qed.

Lemma emit_same_store {P : Type} (e : Event) :
  respects (P:=P) same_store (emit e).
Proof. intros w. reflexivity. Qed.

Lemma api_same_store {P A : Type} (c : ApiCall) (f : P -> Response A * P) :
  respects same_store (api c f).
Proof. intros w. unfold api. destruct (f (lemon w)). reflexivity. Qed.

Lemma query_same_store {P A : Type} (q : Query) (f : Db -> A) :
  respects (P:=P) same_store (query q f).
Proof. intros w. reflexivity. Qed.

Lemma emit_same_provider {P : Type} (e : Event) :
  respects (P:=P) same_provider (emit e).
Proof. intros w. reflexivity. Qed.

Lemma query_same_provider {P A : Type} (q : Query) (f : Db -> A) :
  respects (P:=P) same_provider (query q f).
Proof. intros w. reflexivity. Qed.

Lemma mutate_same_provider {P A : Type} (q : Query) (f : Db -> A * Db) :
  respects (P:=P) same_provider (mutate q f).
Proof. intros w. unfold mutate. destruct (f (db w)). reflexivity. Qed.

Create HintDb respects.
#[export] Hint Resolve emit_only_emits api_only_emits query_only_emits
  mutate_only_emits emit_same_store api_same_store query_same_store
  emit_same_provider query_same_provider mutate_same_provider : respects.
#[export] Hint Extern 1 (_ = true) => reflexivity : respects.

(** Takes a procedure apart for a preorder given by its two laws. *)
Ltac respects_by refl trans :=
  repeat first
    [ apply (respects_ret _ refl)
    | apply (respects_throw _ refl)
    | apply (respects_require _ refl)
    | solve [auto with respects]
    | apply (respects_bind _ trans); [|intros ?]
    | match goal with
      | |- respects _ (match ?x with _ => _ end) => destruct x
      | |- respects _ (let _ := _ in _) => cbv zeta
      end ].

Lemma only_emits_performed {P A : Type} (ok : Event -> bool) (m : M P A)
    (w : World P) :
  only_emits ok w (snd (m w)) -> forallb ok (performed m w) = true.
Proof.
  intros (evs & Htrace & Hok). now rewrite (performed_app m w evs Htrace).
Qed.

Lemma forallb_negb_existsb {A : Type} (f : A -> bool) (l : list A) :
  forallb (fun x => negb (f x)) l = true -> existsb f l = false.
Proof.
  induction l as [|a l IH]; simpl; [reflexivity|].
  intros H. apply andb_prop in H. destruct H as [Ha Hl].
  apply negb_true_iff in Ha. now rewrite Ha, IH.
Qed.

Section RespectsProcedures.

Context {P : Type} {SDK : Provider P} {DBMS : Engine}.
Variable env : Env.
Variable now : JsDate.

Let store_refl := fun w : World P => eq_refl (db w).
Let provider_refl := fun w : World P => eq_refl (lemon w).

(** The procedures that only read the store. *)
Lemma reads_keep_store (r : Request) :
  writes r = false ->
  respects same_store (paymentManagementRouter (P:=P) env now r).
Proof.
  intros Hr.
  destruct r; try discriminate Hr;
    unfold paymentManagementRouter, answer,
      getSubscriptionByUserId, getProductById, createCheckoutForVariant,
      createLsWebhook, getWebhook, hasWebhook, getProductsFromLemonSqueezy,
      getUsageForUser, getOneTimePurchasesForUser, getAllVariants,
      sdkGetProduct, sdkGetVariant, sdkCreateCheckout, sdkCreateWebhook,
      setupLemonSqueezy;
    respects_by store_refl (same_store_trans (P:=P)).
Qed.

Lemma reads_do_not_write (r : Request) :
  writes r = false ->
  respects (only_emits no_write) (paymentManagementRouter (P:=P) env now r).
Proof.
  intros Hr.
  destruct r; try discriminate Hr;
    unfold paymentManagementRouter, answer,
      getSubscriptionByUserId, getProductById, createCheckoutForVariant,
      createLsWebhook, getWebhook, hasWebhook, getProductsFromLemonSqueezy,
      getUsageForUser, getOneTimePurchasesForUser, getAllVariants,
      sdkGetProduct, sdkGetVariant, sdkCreateCheckout, sdkCreateWebhook,
      setupLemonSqueezy;
    respects_by (only_emits_refl (P:=P) no_write)
                (only_emits_trans (P:=P) no_write).
Qed.

(** The procedures served from the store. *)
Lemma locals_keep_provider (r : Request) :
  local r = true ->
  respects same_provider (paymentManagementRouter (P:=P) env now r).
Proof.
  intros Hr.
  destruct r; try discriminate Hr;
    unfold paymentManagementRouter, answer, spendCredits, getUsageForUser,
      getOneTimePurchasesForUser;
    respects_by provider_refl (same_provider_trans (P:=P)).
Qed.

Lemma locals_only_query (r : Request) :
  local r = true ->
  respects (only_emits store_only) (paymentManagementRouter (P:=P) env now r).
Proof.
  intros Hr.
  destruct r; try discriminate Hr;
    unfold paymentManagementRouter, answer, spendCredits, getUsageForUser,
      getOneTimePurchasesForUser;
    respects_by (only_emits_refl (P:=P) store_only)
                (only_emits_trans (P:=P) store_only).
Qed.

End RespectsProcedures.

(** X1. A procedure other than [spendCredits] and
    [createPlansFromLemonSqueezyVariants] leaves every table of the store as
    it was and sends no write to it, whatever its arguments, the
    configuration and the answers of the provider. *)
Theorem reading_procedures_leave_the_store
    {P : Type} {SDK : Provider P} {DBMS : Engine} (env : Env) (now : JsDate)
    (r : Request) (w : World P) :
  writes r = false ->
  db (snd (paymentManagementRouter env now r w)) = db w
  /\ existsb is_write (performed (paymentManagementRouter env now r) w)
     = false.
Proof.
  intros Hr. split.
  - exact (reads_keep_store env now r Hr w).
  - apply forallb_negb_existsb.
    apply (only_emits_performed no_write).
    exact (reads_do_not_write env now r Hr w).
Qed.

Lemma reading_procedures_leave_the_store_witness :
  writes (CreateLsWebhook Sample.admin) = false
  /\ db (snd (paymentManagementRouter (DBMS:=Engines.oldest_first)
                Sample.env Sample.noon
                (CreateLsWebhook Sample.admin) Sample.world_subscribed))
     = db Sample.world_subscribed
  /\ existsb is_write
       (performed (paymentManagementRouter (DBMS:=Engines.oldest_first)
                     Sample.env Sample.noon (CreateLsWebhook Sample.admin))
                  Sample.world_subscribed)
     = false.
Proof.
  split; [reflexivity|].
  apply (reading_procedures_leave_the_store (DBMS:=Engines.oldest_first)).
  reflexivity.
Defined.

(** X2. [spendCredits], [getUsageForUser] and [getOneTimePurchasesForUser]
    are served from the store alone: they leave the provider as it was and
    perform nothing but store queries (no SDK set-up, no provider call, no
    console output). *)
Theorem local_procedures_never_reach_the_provider
    {P : Type} {SDK : Provider P} {DBMS : Engine} (env : Env) (now : JsDate)
    (r : Request) (w : World P) :
  local r = true ->
  lemon (snd (paymentManagementRouter env now r w)) = lemon w
  /\ forallb store_only (performed (paymentManagementRouter env now r) w)
     = true.
Proof.
  intros Hr. split.
  - exact (locals_keep_provider env now r Hr w).
  - apply only_emits_performed. exact (locals_only_query env now r Hr w).
Qed.

Lemma local_procedures_never_reach_the_provider_witness :
  local (SpendCredits Sample.joe 3) = true
  /\ lemon (snd (paymentManagementRouter (DBMS:=Engines.oldest_first)
                   Sample.env Sample.noon
                   (SpendCredits Sample.joe 3) Sample.world))
     = lemon Sample.world
  /\ forallb store_only
       (performed (paymentManagementRouter (DBMS:=Engines.oldest_first)
                     Sample.env Sample.noon (SpendCredits Sample.joe 3))
                  Sample.world)
     = true.
Proof.
  split; [reflexivity|].
  apply (local_procedures_never_reach_the_provider
           (DBMS:=Engines.oldest_first)).
  reflexivity.
Defined.

(** ** Plan creation on any provider data *)

Lemma grows_by_refl {P : Type} (vs : list Variant) (w : World P) :
  grows_by vs w w.
Proof.
  split; [|auto]. exists []. split; [now rewrite app_nil_r|constructor].
Qed.

Lemma grows_by_trans {P : Type} (vs : list Variant) (w1 w2 w3 : World P) :
  grows_by vs w1 w2 -> grows_by vs w2 w3 -> grows_by vs w1 w3.
Proof.
  intros [(c1 & H1 & F1) U1] [(c2 & H2 & F2) U2]. split; [|auto].
  exists (c1 ++ c2)%list. split; [now rewrite H2, H1, app_assoc|].
  apply Forall_app. auto.
Qed.

Lemma findExisting_grows {P : Type} (vs : list Variant) (v : Variant)
    (w : World P) :
  grows_by vs w (snd (findExisting v w)).
Proof.
  split; [|auto]. exists []. split; [simpl; now rewrite app_nil_r|constructor].
Qed.

(** An insert either is refused and changes nothing, or appends the row
    under a key the table did not have. *)
Lemma createMissing_grows {P : Type} (vs : list Variant) (v : Variant)
    (w : World P) :
  In v vs ->
  exists r w',
    createMissing v w = (Ok r, w')
    /\ settled_for v r
    /\ grows_by vs w w'.
Proof.
  intros Hin. unfold createMissing, mutate, Prisma.createPlan.
  destruct (existsb _ (plan (db w))) eqn:E.
  - eexists _, _. split; [reflexivity|]. split; [reflexivity|].
    split; [|auto]. exists []. simpl. split; [now rewrite app_nil_r|constructor].
  - eexists _, _. split; [reflexivity|]. split; [reflexivity|]. split.
    + exists [planOf v]. split; [reflexivity|].
      constructor; [|constructor]. exists v. auto.
    + unfold one_plan_per_variant. simpl. intros Hone.
      rewrite map_app. simpl.
      apply NoDup_app; [exact Hone|repeat constructor; intros []|].
      intros k Hk [<-|[]]. apply in_map_iff in Hk.
      destruct Hk as (row & Hkey & Hrow).
      assert (existsb
                (fun p => (lemonSqueezyVariantId p
                           =? lemonSqueezyVariantId (planOf v))%string)
                (plan (db w)) = true).
      { apply existsb_exists. exists row. split; [exact Hrow|].
        rewrite Hkey. apply String.eqb_refl. }
      congruence.
Qed.

Lemma where_variant_id (k : string) (row : Plan) (t : list Plan) :
  find (where_variant k) t = Some row -> lemonSqueezyVariantId row = k.
Proof.
  intros H. apply find_some in H. destruct H as [_ H].
  now apply String.eqb_eq in H.
Qed.

Section AnySchedule.

Context {P : Type} {SDK : Provider P}.
Variable vs : list Variant.

Lemma advance_for (v : Variant) (t : Task) (w : World P) :
  In v vs ->
  task_for v t ->
  exists t' w',
    advance t w = (Ok t', w') /\ task_for v t' /\ grows_by vs w w'.
Proof.
  intros Hin Ht. destruct t as [v'|v'|row|msg]; simpl in Ht; subst.
  - unfold advance, bind. rewrite findExisting_run.
    destruct (find (where_variant (v_id v)) (plan (db w))) as [row|] eqn:E.
    + eexists _, _. split; [reflexivity|]. split.
      * simpl. exact (where_variant_id _ _ _ E).
      * exact (findExisting_grows vs v w).
    + eexists _, _. split; [reflexivity|]. split; [reflexivity|].
      exact (findExisting_grows vs v w).
  - destruct (createMissing_grows vs v w Hin) as (r & w' & Hrun & Hr & Hg).
    unfold advance, bind. rewrite Hrun.
    destruct r as [row|msg]; eexists _, _;
      (split; [reflexivity|]); split; assumption.
  - eexists _, _. split; [reflexivity|]. split; [exact Ht|].
    apply grows_by_refl.
  - eexists _, _. split; [reflexivity|]. split; [reflexivity|].
    apply grows_by_refl.
Qed.

Lemma settle_for (v : Variant) (t : Task) (w : World P) :
  In v vs ->
  task_for v t ->
  exists r w',
    settle t w = (Ok r, w') /\ settled_for v r /\ grows_by vs w w'.
Proof.
  intros Hin Ht. destruct t as [v'|v'|row|msg]; simpl in Ht; subst.
  - unfold settle, bind. rewrite findExisting_run.
    destruct (find (where_variant (v_id v)) (plan (db w))) as [row|] eqn:E.
    + eexists _, _. split; [reflexivity|]. split.
      * simpl. exact (where_variant_id _ _ _ E).
      * exact (findExisting_grows vs v w).
    + match goal with
      | |- context [createMissing v ?w1] =>
          destruct (createMissing_grows vs v w1 Hin)
            as (r & w' & Hrun & Hr & Hg)
      end.
      eexists _, _. split; [exact Hrun|]. split; [exact Hr|].
      exact (grows_by_trans vs _ _ _ (findExisting_grows vs v w) Hg).
  - exact (createMissing_grows vs v w Hin).
  - eexists _, _. split; [reflexivity|]. split; [exact Ht|].
    apply grows_by_refl.
  - eexists _, _. split; [reflexivity|]. split; [reflexivity|].
    apply grows_by_refl.
Qed.

Lemma Forall2_replace_at {R : Variant -> Task -> Prop} (us : list Variant) :
  forall (ts : list Task) (i : nat) (k : Task),
    Forall2 R us ts ->
    nth_error ts i = Some k ->
    exists v,
      In v us /\ R v k
      /\ forall k', R v k' -> Forall2 R us (replace i k' ts).
Proof.
  induction us as [|v0 us IH]; intros ts i k Hall Hnth.
  - inversion Hall; subst. destruct i; discriminate.
  - inversion Hall as [|? k0 ? ts0 Hhead Htail]; subst.
    destruct i as [|i]; simpl in Hnth.
    + injection Hnth as ->. exists v0. split; [now left|].
      split; [exact Hhead|]. intros k' Hk'. simpl. now constructor.
    + destruct (IH ts0 i k Htail Hnth) as (v & Hin & Hv & Hstep).
      exists v. split; [now right|]. split; [exact Hv|].
      intros k' Hk'. simpl. constructor; auto.
Qed.

Lemma interleave_for (schedule : list nat) :
  forall (ts : list Task) (w : World P),
    Forall2 task_for vs ts ->
    exists ts' w',
      interleave schedule ts w = (Ok ts', w')
      /\ Forall2 task_for vs ts'
      /\ grows_by vs w w'.
Proof.
  induction schedule as [|i later IH]; intros ts w Hall; simpl.
  - eexists _, _. split; [reflexivity|]. split; [exact Hall|].
    apply grows_by_refl.
  - destruct (nth_error ts i) as [k|] eqn:Hnth; [|now apply IH].
    destruct (Forall2_replace_at vs ts i k Hall Hnth)
      as (v & Hin & Hk & Hstep).
    destruct (advance_for v k w Hin Hk) as (k' & w1 & Hrun & Hk' & Hg).
    unfold bind. rewrite Hrun.
    destruct (IH (replace i k' ts) w1 (Hstep k' Hk'))
      as (ts' & w' & Hrun' & Hall' & Hg').
    exists ts', w'. split; [exact Hrun'|]. split; [exact Hall'|].
    exact (grows_by_trans vs _ _ _ Hg Hg').
Qed.

Lemma settleAll_for (us : list Variant) :
  forall (ts : list Task) (w : World P),
    incl us vs ->
    Forall2 task_for us ts ->
    exists rs w',
      settleAll ts w = (Ok rs, w')
      /\ Forall2 settled_for us rs
      /\ grows_by vs w w'.
Proof.
  induction us as [|v us IH]; intros ts w Hincl Hall.
  - inversion Hall; subst. eexists _, _. split; [reflexivity|].
    split; [constructor|apply grows_by_refl].
  - inversion Hall as [|? k ? ts' Hk Htail]; subst.
    destruct (settle_for v k w (Hincl v (or_introl eq_refl)) Hk)
      as (r & w1 & Hrun & Hr & Hg).
    destruct (IH ts' w1) as (rs & w' & Hrun' & Hrs & Hg');
      [intros u Hu; apply Hincl; now right|exact Htail|].
    exists (r :: rs), w'. simpl. unfold bind. rewrite Hrun, Hrun'.
    split; [reflexivity|]. split; [now constructor|].
    exact (grows_by_trans vs _ _ _ Hg Hg').
Qed.

(** What [Promise.all] makes of settled tasks. *)
Lemma all_settled (us : list Variant) (rs : list (Result Plan)) :
  Forall2 settled_for us rs ->
  match all rs with
  | Ok plans =>
      Forall2 (fun v p => lemonSqueezyVariantId p = v_id v) us plans
  | Throw msg => msg = Prisma.unique_violation
  end.
Proof.
  induction 1 as [|v r us rs Hr _ IH]; simpl; [constructor|].
  destruct r as [row|msg]; [|exact Hr].
  destruct (all rs) as [plans|msg]; [now constructor|exact IH].
Qed.

End AnySchedule.

Lemma tasks_start_for (vs : list Variant) :
  Forall2 task_for vs (map Pending vs).
Proof. induction vs as [|v vs IH]; simpl; constructor; simpl; auto. Qed.

(** The three ways [createPlansFromLemonSqueezyVariants] can go. *)
Lemma createPlans_cases
    {P : Type} {SDK : Provider P} (env : Env) (user : User)
    (schedule : list nat) (w : World P) :
  let m := createPlansFromLemonSqueezyVariants env user schedule in
  (role user <> "SUPER_ADMIN"
   /\ m w = (Throw "Unauthorized access to the resource", w))
  \/ (role user = "SUPER_ADMIN"
      /\ payload (fst (listVariants None (lemon w))) = None
      /\ fst (m w) = Throw "Failed to fetch variants from Lemon Squeezy."
      /\ db (snd (m w)) = db w)
  \/ (role user = "SUPER_ADMIN"
      /\ exists vs rs,
           payload (fst (listVariants None (lemon w))) = Some vs
           /\ Forall2 settled_for vs rs
           /\ fst (m w) = all rs
           /\ grows_by vs w (snd (m w))).
Proof.
  intros m.
  destruct (String.eqb_spec (role user) "SUPER_ADMIN") as [Hrole|Hrole].
  2:{ left. split; [exact Hrole|]. apply String.eqb_neq in Hrole.
      unfold m, createPlansFromLemonSqueezyVariants. now rewrite Hrole. }
  right.
  destruct (listVariants None (lemon w)) as [r p] eqn:Hlist. cbn [fst].
  set (w0 := mkWorld (db w) p
               ((trace w ++ [Setup (LEMON_SQUEEZY_API_KEY env)])
                ++ [Api (ListVariants None)])).
  assert (E : m w
              = match payload r with
                | Some vs =>
                    (running <- interleave schedule (map Pending vs) ;;
                     settled <- settleAll running ;;
                     match all settled with
                     | Ok plans => ret plans
                     | Throw msg => throw msg
                     end) w0
                | None =>
                    (Throw "Failed to fetch variants from Lemon Squeezy.", w0)
                end).
  { unfold m, createPlansFromLemonSqueezyVariants.
    rewrite Hrole, String.eqb_refl. cbn [negb]. unfold setupLemonSqueezy.
    unfold bind at 1. unfold emit at 1. unfold bind at 1. unfold api at 1.
    cbn [lemon db trace]. rewrite Hlist. fold w0.
    destruct (payload r); reflexivity. }
  rewrite E. clear E.
  destruct (payload r) as [vs|] eqn:Hvs.
  2:{ left. split; [exact Hrole|]. repeat split; reflexivity. }
  right. split; [exact Hrole|].
  destruct (interleave_for vs schedule (map Pending vs) w0 (tasks_start_for vs))
    as (ts & w1 & Hrun & Hall & Hg1).
  destruct (settleAll_for vs vs ts w1 (incl_refl vs) Hall)
    as (rs & w' & Hsettle & Hrs & Hg2).
  rewrite (bind_ok _ _ w0 w1 ts Hrun).
  rewrite (bind_ok _ _ w1 w' rs Hsettle).
  exists vs, rs. split; [reflexivity|]. split; [exact Hrs|].
  assert (Hg : grows_by vs w w').
  { apply (grows_by_trans vs w w0 w'); [apply (grows_by_refl vs w)|].
    exact (grows_by_trans vs _ _ _ Hg1 Hg2). }
  destruct (all rs) as [plans|msg]; split; try reflexivity; exact Hg.
Qed.

(** X3. Whatever the provider returns and however the lookups and inserts
    interleave, [createPlansFromLemonSqueezyVariants] only adds to the plan
    table: the rows it found are kept as they were, in place; a table with
    one plan per variant id stays so; and every row added is the plan (id and
    name) of a variant of the provider's answer. *)
Theorem plan_creation_only_adds
    {P : Type} {SDK : Provider P} (env : Env) (user : User)
    (schedule : list nat) (w : World P) :
  let w' := snd (createPlansFromLemonSqueezyVariants env user schedule w) in
  prefix (plan (db w)) (plan (db w'))
  /\ (one_plan_per_variant (plan (db w)) ->
      one_plan_per_variant (plan (db w')))
  /\ forall row,
       In row (plan (db w')) ->
       In row (plan (db w))
       \/ exists vs v,
            payload (fst (listVariants None (lemon w))) = Some vs
            /\ In v vs
            /\ row = mkPlan (v_id v) (v_name v).
Proof.
  cbv zeta.
  destruct (createPlans_cases env user schedule w)
    as [[_ E]|[(_ & _ & _ & E)|(_ & vs & rs & Hvs & _ & _ & Hg)]];
    cbv zeta in *.
  - rewrite E. simpl.
    split; [exists []; now rewrite app_nil_r|]. auto.
  - rewrite E. split; [exists []; now rewrite app_nil_r|]. auto.
  - destruct Hg as [(c & Hc & Hfrom) Hone].
    split; [exists c; exact Hc|]. split; [exact Hone|].
    intros row Hrow. rewrite Hc in Hrow. apply in_app_or in Hrow.
    destruct Hrow as [Hrow|Hrow]; [now left|right].
    rewrite Forall_forall in Hfrom.
    destruct (Hfrom row Hrow) as (v & Hv & ->).
    exists vs, v. auto.
Qed.

Lemma plan_creation_only_adds_witness :
  let w :=
    mkWorld (mkDb [] [mkPlan "v1" "Pro (renamed)"] [] [])
            (mkAccount true [] [Sample.pro; Sample.basic; Sample.basic] [])
            [] in
  let w' :=
    snd (createPlansFromLemonSqueezyVariants Sample.env Sample.admin
           [2%nat; 1%nat; 0%nat] w) in
  one_plan_per_variant (plan (db w))
  /\ one_plan_per_variant (plan (db w'))
  /\ plan (db w') = [mkPlan "v1" "Pro (renamed)"; mkPlan "v2" "Basic"].
Proof.
  cbv zeta.
  assert (H : one_plan_per_variant [mkPlan "v1" "Pro (renamed)"]).
  { repeat constructor. intros []. }
  split; [exact H|]. split; [|reflexivity].
  exact (proj1 (proj2 (plan_creation_only_adds Sample.env Sample.admin
                         [2%nat; 1%nat; 0%nat]
                         (mkWorld (mkDb [] [mkPlan "v1" "Pro (renamed)"] [] [])
                            (mkAccount true []
                               [Sample.pro; Sample.basic; Sample.basic] [])
                            []))) H).
Defined.

(** X4. The outcomes of [createPlansFromLemonSqueezyVariants], for every
    caller, provider answer and interleaving.  It returns only for an
    administrator and an answer with data, and then with one plan per
    variant, in the order of the variants and each under its variant's id.
    Otherwise it throws, and the message is one of three: the authorization
    error (exactly when the role is not SUPER_ADMIN), the missing-data error
    (for an administrator, exactly when the answer carries no data), or the
    store's refusal of a second row under one variant id. *)
Theorem plan_creation_outcomes
    {P : Type} {SDK : Provider P} (env : Env) (user : User)
    (schedule : list nat) (w : World P) :
  let answer := payload (fst (listVariants None (lemon w))) in
  match fst (createPlansFromLemonSqueezyVariants env user schedule w) with
  | Ok plans =>
      role user = "SUPER_ADMIN"
      /\ exists vs,
           answer = Some vs
           /\ Forall2 (fun v p => lemonSqueezyVariantId p = v_id v) vs plans
  | Throw msg =>
      (msg = "Unauthorized access to the resource"
       /\ role user <> "SUPER_ADMIN")
      \/ (msg = "Failed to fetch variants from Lemon Squeezy."
          /\ role user = "SUPER_ADMIN" /\ answer = None)
      \/ (msg = Prisma.unique_violation
          /\ role user = "SUPER_ADMIN" /\ answer <> None)
  end.
Proof.
  intros answer.
  destruct (createPlans_cases env user schedule w)
    as [[Hrole E]|[(Hrole & Hno & E & _)|(Hrole & vs & rs & Hvs & Hrs & E & _)]];
    cbv zeta in *; rewrite E.
  - left. auto.
  - right. left. auto.
  - pose proof (all_settled vs rs Hrs) as Hall.
    destruct (all rs) as [plans|msg].
    + split; [exact Hrole|]. exists vs. auto.
    + right. right. unfold answer. rewrite Hvs.
      repeat split; [exact Hall|exact Hrole|discriminate].
Qed.

Lemma same_but_plans_refl {P : Type} (w : World P) : same_but_plans w w.
Proof. repeat split. Qed.

Section PlanCreationFrame.

Context {P : Type} {SDK : Provider P}.

Lemma findExisting_same_but_plans (v : Variant) :
  respects (P:=P) same_but_plans (findExisting v).
Proof. intros w. repeat split. Qed.

Lemma createMissing_same_but_plans (v : Variant) :
  respects (P:=P) same_but_plans (createMissing v).
Proof.
  intros w. unfold createMissing, mutate.
  destruct (Prisma.createPlan (planOf v) (plan (db w))). repeat split.
Qed.

Lemma findExisting_plan_traffic (v : Variant) :
  respects (P:=P) (only_emits plan_creation_effect) (findExisting v).
Proof. unfold findExisting. auto with respects. Qed.

Lemma createMissing_plan_traffic (v : Variant) :
  respects (P:=P) (only_emits plan_creation_effect) (createMissing v).
Proof. unfold createMissing. auto with respects. Qed.

Lemma emit_same_but_plans (e : Event) :
  respects (P:=P) same_but_plans (emit e).
Proof. intros w. repeat split. Qed.

Lemma api_same_but_plans {A : Type} (c : ApiCall) (f : P -> Response A * P) :
  respects same_but_plans (api c f).
Proof. intros w. unfold api. destruct (f (lemon w)). repeat split. Qed.

Lemma createPlans_same_but_plans (env : Env) (user : User)
    (schedule : list nat) :
  respects same_but_plans
    (createPlansFromLemonSqueezyVariants env user schedule).
Proof.
  pose proof (respects_interleave same_but_plans same_but_plans_refl
                same_but_plans_trans findExisting_same_but_plans
                createMissing_same_but_plans) as Hi.
  pose proof (respects_settleAll same_but_plans same_but_plans_refl
                same_but_plans_trans findExisting_same_but_plans
                createMissing_same_but_plans) as Hs.
  pose proof emit_same_but_plans. pose proof @api_same_but_plans.
  unfold createPlansFromLemonSqueezyVariants, setupLemonSqueezy.
  respects_by (same_but_plans_refl (P:=P)) (same_but_plans_trans (P:=P)).
Qed.

Lemma createPlans_plan_traffic (env : Env) (user : User)
    (schedule : list nat) :
  respects (only_emits plan_creation_effect)
    (createPlansFromLemonSqueezyVariants env user schedule).
Proof.
  pose proof (respects_interleave _ (only_emits_refl plan_creation_effect)
                (only_emits_trans plan_creation_effect)
                findExisting_plan_traffic createMissing_plan_traffic) as Hi.
  pose proof (respects_settleAll _ (only_emits_refl plan_creation_effect)
                (only_emits_trans plan_creation_effect)
                findExisting_plan_traffic createMissing_plan_traffic) as Hs.
  unfold createPlansFromLemonSqueezyVariants, setupLemonSqueezy.
  respects_by (only_emits_refl (P:=P) plan_creation_effect)
              (only_emits_trans (P:=P) plan_creation_effect).
Qed.

End PlanCreationFrame.

(** X5. Each of the two writing procedures writes one table.
    [createPlansFromLemonSqueezyVariants] leaves usage rows, subscriptions
    and purchases as they were, and all it does is set up the SDK, list the
    variants (all of them, without filter), and look up and insert plans by
    variant id.  [spendCredits] leaves plans, subscriptions and purchases as
    they were, and its one effect is the upsert. *)
Theorem writers_write_one_table
    {P : Type} {SDK : Provider P} (env : Env) (now : JsDate) (user : User)
    (schedule : list nat) (amount : Z) (w : World P) :
  let create := createPlansFromLemonSqueezyVariants env user schedule in
  let spend := spendCredits now user amount in
  (same_but_plans w (snd (create w))
   /\ forallb plan_creation_effect (performed create w) = true)
  /\ (same_but_usage w (snd (spend w))
      /\ performed spend w
         = [Store (FeatureUsageUpsert (id user) (setHours0 now) amount)]).
Proof.
  cbv zeta. split; split.
  - exact (createPlans_same_but_plans env user schedule w).
  - apply only_emits_performed.
    exact (createPlans_plan_traffic env user schedule w).
  - repeat split.
  - apply performed_app. reflexivity.
Qed.

(** ** Webhooks, further *)

(** X6. With the webhook URL configured, [hasWebhook] does not throw and asks
    the provider once, for the webhooks of the store named by
    [process.env.LEMONSQUEEZY_STORE_ID].  The webhook it returns is the first
    of the listing that has the configured URL and is in test mode; it
    returns none exactly when the answer carries no data or no listed webhook
    with that URL is in test mode, so a webhook in live mode is never
    returned. *)
Theorem hasWebhook_returns_first_test_webhook
    {P : Type} {SDK : Provider P} (env : Env) (u : string) (w : World P) :
  LEMON_SQUEEZY_WEBHOOK_URL env = Some u ->
  u <> "" ->
  let listing :=
    payload (fst (listWebhooks (LEMONSQUEEZY_STORE_ID env) (lemon w))) in
  (exists found, fst (hasWebhook env w) = Ok found)
  /\ filter is_api (performed (hasWebhook env) w)
     = [Api (ListWebhooks (LEMONSQUEEZY_STORE_ID env))]
  /\ (forall wh,
        fst (hasWebhook env w) = Ok (Some wh) <->
        exists before after,
          listing = Some (before ++ wh :: after)%list
          /\ url wh = u /\ test_mode wh = true
          /\ forall x, In x before -> url x = u -> test_mode x = false)
  /\ (fst (hasWebhook env w) = Ok None <->
      listing = None
      \/ exists whs,
           listing = Some whs
           /\ forall x, In x whs -> url x = u -> test_mode x = false).
Proof.
  intros Hurl Hu listing.
  pose proof (hasWebhook_run env w) as E. rewrite Hurl in E.
  rewrite (proj2 (truthy_Some u) Hu) in E.
  assert (Hmatch : forall x, matching u x = false <->
                             (url x = u -> test_mode x = false)).
  { intros x. unfold matching.
    destruct (String.eqb_spec (url x) u) as [Hx|Hx]; simpl.
    - split; auto.
    - split; [intros _ Hc; contradiction|reflexivity]. }
  assert (Hmatch' : forall x, matching u x = true <->
                              url x = u /\ test_mode x = true).
  { intros x. unfold matching. rewrite andb_true_iff, String.eqb_eq. tauto. }
  split; [eexists; rewrite E; reflexivity|]. split; [|split].
  - erewrite performed_app by (rewrite E; reflexivity). reflexivity.
  - intros wh. rewrite E. cbn [fst]. unfold found. fold listing.
    destruct listing as [whs|]; split.
    + intros H. injection H as H.
      destruct (first_match _ (matching u) whs)
        as [Hnone|(before & r & after & -> & Hb & Hr)].
      * apply find_none_iff in Hnone. congruence.
      * rewrite find_app_skip in H by exact Hb. simpl in H. rewrite Hr in H.
        injection H as ->. exists before, after.
        apply Hmatch' in Hr. destruct Hr as [Hr1 Hr2].
        repeat split; auto. intros x Hx. apply Hmatch. auto.
    + intros (before & after & Hl & Hwu & Hwt & Hb). injection Hl as ->.
      rewrite find_app_skip by (intros x Hx; apply Hmatch; auto).
      simpl. now rewrite (proj2 (Hmatch' wh) (conj Hwu Hwt)).
    + discriminate.
    + intros (before & after & Hl & _). discriminate.
  - rewrite E. cbn [fst]. unfold found. fold listing.
    destruct listing as [whs|]; split.
    + intros H. injection H as H. right. exists whs. split; [reflexivity|].
      intros x Hx. apply Hmatch. exact (find_none _ _ H x Hx).
    + intros [H|(whs' & H & Hall)]; [discriminate|]. injection H as <-.
      f_equal. apply find_none_iff. intros x Hx. apply Hmatch. auto.
    + intros _. now left.
    + reflexivity.
Qed.

Lemma hasWebhook_returns_first_test_webhook_witness :
  let live := mkWebhook "7" "42" "https://app.test/hook" false in
  let test := mkWebhook "8" "42" "https://app.test/hook" true in
  let w := mkWorld Sample.empty (mkAccount true [live; test] [] []) [] in
  LEMON_SQUEEZY_WEBHOOK_URL Sample.env = Some "https://app.test/hook"
  /\ fst (hasWebhook Sample.env w) = Ok (Some test).
Proof.
  cbv zeta. split; [reflexivity|].
  apply (hasWebhook_returns_first_test_webhook Sample.env
           "https://app.test/hook"
           (mkWorld Sample.empty
              (mkAccount true
                 [mkWebhook "7" "42" "https://app.test/hook" false;
                  mkWebhook "8" "42" "https://app.test/hook" true] [] []) [])
           eq_refl).
  - discriminate.
  - exists [mkWebhook "7" "42" "https://app.test/hook" false], [].
    repeat split. intros x [<-|[]]. reflexivity.
Defined.

(** X7. The provider calls of [createLsWebhook].  It makes none, or lists the
    webhooks, or lists them and then creates one webhook: never more than one
    creation, and never one without the listing before it.  The webhook asked
    for is in test mode, has the configured URL and secret and the three
    subscription events, and goes to the store [env.LEMON_SQUEEZY_STORE_ID],
    while the listing is filtered by [process.env.LEMONSQUEEZY_STORE_ID].  For
    an administrator with the URL configured, when [hasWebhook] returns none
    (also when the listing came without data): with the store id set the
    creation is sent and the procedure returns; with the store id missing or
    empty the SDK throws for the missing parameter, after the listing and
    without a creation request. *)
Theorem createLsWebhook_provider_calls
    {P : Type} {SDK : Provider P} (env : Env) (user : User) (w : World P) :
  let m := createLsWebhook env user in
  let calls := filter is_api (performed m w) in
  let listed := Api (ListWebhooks (LEMONSQUEEZY_STORE_ID env)) in
  let created store u :=
    Api (CreateWebhook store
           (mkNewWebhook (LEMON_SQUEEZY_WEBHOOK_SECRET env) u true
              ["subscription_created"; "subscription_expired";
               "subscription_updated"])) in
  (calls = []
   \/ calls = [listed]
   \/ exists store u,
        LEMON_SQUEEZY_STORE_ID env = Some store
        /\ store <> ""
        /\ LEMON_SQUEEZY_WEBHOOK_URL env = Some u
        /\ calls = [listed; created store u])
  /\ forall u,
       role user = "SUPER_ADMIN" ->
       LEMON_SQUEEZY_WEBHOOK_URL env = Some u ->
       u <> "" ->
       fst (hasWebhook env w) = Ok None ->
       (forall store,
          LEMON_SQUEEZY_STORE_ID env = Some store ->
          store <> "" ->
          calls = [listed; created store u] /\ fst (m w) = Ok tt)
       /\ (truthy (LEMON_SQUEEZY_STORE_ID env) = false ->
           calls = [listed]
           /\ fst (m w)
              = Throw "Please provide the required parameter: storeId.").
Proof.
  intros m calls listed created.
  destruct (String.eqb_spec (role user) "SUPER_ADMIN") as [Hrole|Hrole].
  2:{ destruct (unauthorized_role_stops env user w Hrole) as [_ Hp].
      unfold calls, m. rewrite Hp. split; [now left|]. intros; contradiction. }
  destruct (LEMON_SQUEEZY_WEBHOOK_URL env) as [u|] eqn:Hurl.
  2:{ assert (Hp : performed (createLsWebhook env user) w
                   = [Setup (LEMON_SQUEEZY_API_KEY env)]).
      { apply performed_app. unfold createLsWebhook, bind, emit, require.
        rewrite Hrole, Hurl. reflexivity. }
      unfold calls, m. rewrite Hp. split; [now left|]. intros; discriminate. }
  destruct (String.eqb_spec u "") as [Hu|Hu].
  { assert (Hp : performed (createLsWebhook env user) w
                 = [Setup (LEMON_SQUEEZY_API_KEY env)]).
    { apply performed_app. unfold createLsWebhook, bind, emit, require.
      rewrite Hrole, Hurl, Hu. reflexivity. }
    unfold calls, m. rewrite Hp. split; [now left|].
    intros u0 _ Hu0 Hne. congruence. }
  pose proof (createLsWebhook_run env user u w Hrole Hurl Hu) as E.
  pose proof (hasWebhook_run env w) as Eh. rewrite Hurl in Eh.
  rewrite (proj2 (truthy_Some u) Hu) in Eh.
  cbv zeta in E. fold m in E.
  destruct (found env u (lemon w)) as [wh|] eqn:Hf.
  - assert (Hc : calls = [listed]).
    { unfold calls. erewrite performed_app by (rewrite E; reflexivity).
      reflexivity. }
    split; [right; now left|].
    intros u0 _ _ _ Hnone. rewrite Eh in Hnone. discriminate.
  - destruct (LEMON_SQUEEZY_STORE_ID env) as [store|] eqn:Hstore.
    + destruct (truthy (Some store)) eqn:Hs.
      * assert (Hc : calls = [listed; created store u]).
        { unfold calls. erewrite performed_app by (rewrite E; reflexivity).
          reflexivity. }
        split.
        -- right; right. exists store, u.
           split; [reflexivity|]. split; [now apply truthy_Some|]. auto.
        -- intros u0 _ Hu0 _ _. injection Hu0 as <-. split.
           ++ intros store0 Hs0 _. injection Hs0 as <-.
              split; [exact Hc|]. rewrite E. reflexivity.
           ++ intros Hfalse. discriminate.
      * assert (Hc : calls = [listed]).
        { unfold calls. erewrite performed_app by (rewrite E; reflexivity).
          reflexivity. }
        split; [right; now left|].
        intros u0 _ Hu0 _ _. split.
        -- intros store0 Hs0 Hne. injection Hs0 as <-.
           apply truthy_Some in Hne. congruence.
        -- intros _. split; [exact Hc|]. rewrite E. reflexivity.
    + assert (Hc : calls = [listed]).
      { unfold calls. erewrite performed_app by (rewrite E; reflexivity).
        reflexivity. }
      split; [right; now left|].
      intros u0 _ Hu0 _ _. split.
      * intros store0 Hs0. discriminate.
      * intros _. split; [exact Hc|]. rewrite E. reflexivity.
Qed.

Lemma createLsWebhook_provider_calls_witness :
  let live := mkWebhook "7" "42" "https://app.test/hook" false in
  let w := mkWorld Sample.empty (mkAccount true [live] [] []) [] in
  fst (hasWebhook Sample.env w) = Ok None
  /\ (filter is_api (performed (createLsWebhook Sample.env Sample.admin) w)
      = [Api (ListWebhooks None);
         Api (CreateWebhook "42"
                (mkNewWebhook (Some "s3cret") "https://app.test/hook" true
                   ["subscription_created"; "subscription_expired";
                    "subscription_updated"]))]
      /\ fst (createLsWebhook Sample.env Sample.admin w) = Ok tt).
Proof.
  cbv zeta. split; [reflexivity|].
  refine (proj1 (proj2 (createLsWebhook_provider_calls Sample.env Sample.admin
                          (mkWorld Sample.empty
                             (mkAccount true
                                [mkWebhook "7" "42" "https://app.test/hook"
                                   false]
                                [] []) []))
                   "https://app.test/hook" eq_refl eq_refl _ eq_refl)
            "42" eq_refl _); discriminate.
Defined.

(** ** Checkout, further *)

(** X8. With the store id configured and a variant id that is not empty,
    [createCheckoutForVariant] calls [createCheckout] once, for that store
    and the given variant, and returns the provider's answer.  The checkout
    carries the e-mail of the session's
    user, or the string "undefined" when there is no user or the user has no
    e-mail; the user's id, or none; the [embed] option as given; and the
    redirect URL [NEXT_PUBLIC_DEPLOYMENT_URL] followed by "/billing", which is
    "undefined/billing" when that variable is not set. *)
Theorem checkout_carries_the_session
    {P : Type} {SDK : Provider P} (env : Env) (session : option User)
    (variant : string) (embed_ : option bool) (storeId : string)
    (w : World P) :
  LEMON_SQUEEZY_STORE_ID env = Some storeId ->
  storeId <> "" ->
  variant <> "" ->
  let m := createCheckoutForVariant env session variant embed_ in
  exists sent,
    filter is_api (performed m w) = [Api (CreateCheckout storeId variant sent)]
    /\ fst (m w) = Ok (fst (createCheckout storeId variant sent (lemon w)))
    /\ co_email sent
       = match session with
         | Some (mkUser _ (Some address) _) => address
         | _ => "undefined"
         end
    /\ userIdInDatabase sent
       = match session with
         | Some user => Some (id user)
         | None => None
         end
    /\ embed sent = embed_
    /\ redirectUrl sent
       = match NEXT_PUBLIC_DEPLOYMENT_URL env with
         | Some base => (base ++ "/billing")%string
         | None => "undefined/billing"
         end.
Proof.
  intros Hstore Hne Hvariant m.
  pose proof (createCheckoutForVariant_run env session variant embed_ w) as E.
  cbv zeta in E. rewrite Hstore in E.
  rewrite (proj2 (truthy_Some storeId) Hne) in E.
  rewrite (proj2 (truthy_Some variant) Hvariant) in E. fold m in E.
  eexists. split; [|split; [|split; [|split; [|split]]]].
  - erewrite performed_app by (rewrite E; reflexivity). reflexivity.
  - rewrite E. reflexivity.
  - simpl. destruct session as [[i [address|] r]|]; reflexivity.
  - simpl. destruct session; reflexivity.
  - reflexivity.
  - simpl. destruct (NEXT_PUBLIC_DEPLOYMENT_URL env); reflexivity.
Qed.

Lemma checkout_carries_the_session_witness :
  let m := createCheckoutForVariant Sample.env (Some Sample.joe) "v1" None in
  LEMON_SQUEEZY_STORE_ID Sample.env = Some "42"
  /\ "v1" <> ""
  /\ exists sent,
       filter is_api (performed m Sample.world)
       = [Api (CreateCheckout "42" "v1" sent)]
       /\ co_email sent = "joe@app.test"
       /\ userIdInDatabase sent = Some "u2".
Proof.
  cbv zeta. split; [reflexivity|]. split; [discriminate|].
  destruct (checkout_carries_the_session Sample.env (Some Sample.joe) "v1" None
              "42" Sample.world eq_refl)
    as (sent & Hcalls & _ & Hmail & Hid & _); [discriminate|discriminate|].
  exists sent. auto.
Defined.

(** ** Usage metering, further *)

Lemma increment_key (user : string) (d : JsDate) (a : Z) (r : FeatureUsage) :
  where_userId_date user d (increment a r) = where_userId_date user d r.
Proof. reflexivity. Qed.

Lemma increment_increment (a b : Z) (r : FeatureUsage) :
  increment b (increment a r) = increment (a + b) r.
Proof. unfold increment. simpl. now rewrite Z.add_assoc. Qed.

Lemma spendCredits_db {P : Type} (now : JsDate) (user : User) (amount : Z)
    (w : World P) :
  db (snd (spendCredits now user amount w))
  = set_featureUsage
      (Prisma.upsert (where_userId_date (id user) (setHours0 now))
         (increment amount) (mkUsage (id user) (setHours0 now) amount)
         (featureUsage (db w)))
      (db w).
Proof. reflexivity. Qed.

(** X9. Two [spendCredits] calls of a user on one day leave the store as one
    call spending the sum of the two amounts does. *)
Theorem spending_twice_is_spending_the_sum
    {P : Type} (now1 now2 : JsDate) (user : User) (a b : Z) (w : World P) :
  setHours0 now1 = setHours0 now2 ->
  db (snd (spendCredits now2 user b (snd (spendCredits now1 user a w))))
  = db (snd (spendCredits now2 user (a + b) w)).
Proof.
  intros Hday. rewrite !spendCredits_db. rewrite Hday.
  set (d := setHours0 now2). unfold set_featureUsage. simpl. f_equal.
  destruct (first_match _ (where_userId_date (id user) d) (featureUsage (db w)))
    as [Hnone|(before & r & after & -> & Hb & Hr)].
  - rewrite (upsert_absent _ _ (increment a) _ (featureUsage (db w)) Hnone).
    rewrite (upsert_absent _ _ (increment (a + b)) _ (featureUsage (db w))
               Hnone).
    rewrite upsert_present;
      [reflexivity|exact Hnone|now apply where_userId_date_key].
  - rewrite (upsert_present _ _ (increment a) _ before r after Hb Hr).
    rewrite (upsert_present _ _ (increment (a + b)) _ before r after Hb Hr).
    rewrite upsert_present; [|exact Hb|now rewrite increment_key].
    now rewrite increment_increment.
Qed.

Lemma spending_twice_is_spending_the_sum_witness :
  setHours0 Sample.noon = setHours0 Sample.evening
  /\ db (snd (spendCredits Sample.evening Sample.joe 4
                (snd (spendCredits Sample.noon Sample.joe 3
                        Sample.world_ahead))))
     = db (snd (spendCredits Sample.evening Sample.joe 7 Sample.world_ahead)).
Proof.
  split; [reflexivity|].
  apply spending_twice_is_spending_the_sum. reflexivity.
Defined.

(** X10. [spendCredits] takes any amount, also a negative one.  When the user
    has a row for the day, spending an amount and then its negative restores
    the store; when the user has none, the pair leaves behind a new row
    with 0 clicks. *)
Theorem spending_back_restores
    {P : Type} (now1 now2 : JsDate) (user : User) (a : Z) (w : World P) :
  setHours0 now1 = setHours0 now2 ->
  let key := (id user, setHours0 now1) in
  let w' :=
    snd (spendCredits now2 user (- a) (snd (spendCredits now1 user a w))) in
  ((exists r, In r (featureUsage (db w)) /\ usage_key r = key) ->
   db w' = db w)
  /\ ((forall r, In r (featureUsage (db w)) -> usage_key r <> key) ->
      featureUsage (db w')
      = (featureUsage (db w) ++ [mkUsage (id user) (setHours0 now1) 0])%list).
Proof.
  intros Hday key w'. unfold w'. rewrite !spendCredits_db. rewrite <- Hday.
  set (d := setHours0 now1). unfold set_featureUsage. simpl.
  destruct (first_match _ (where_userId_date (id user) d) (featureUsage (db w)))
    as [Hnone|(before & r & after & Htab & Hb & Hr)].
  - split.
    + intros (r & Hin & Hkey).
      apply (proj2 (where_userId_date_key (id user) d r)) in Hkey.
      rewrite (Hnone r Hin) in Hkey. discriminate.
    + intros _.
      rewrite (upsert_absent _ _ (increment a) _ (featureUsage (db w)) Hnone).
      rewrite upsert_present;
        [|exact Hnone|now apply where_userId_date_key].
      unfold increment. simpl. now rewrite Z.add_opp_diag_r.
  - split.
    + intros _. rewrite Htab.
      rewrite (upsert_present _ _ (increment a) _ before r after Hb Hr).
      rewrite upsert_present; [|exact Hb|now rewrite increment_key].
      rewrite increment_increment, Z.add_opp_diag_r.
      assert (Hr0 : increment 0 r = r).
      { destruct r as [u dd c]. unfold increment. simpl.
        now rewrite Z.add_0_r. }
      rewrite Hr0, <- Htab. destruct (db w). reflexivity.
    + intros Hno. exfalso. apply (Hno r).
      * rewrite Htab. apply in_or_app. right. now left.
      * now apply where_userId_date_key.
Qed.

Lemma spending_back_restores_witness :
  let w := snd (spendCredits Sample.noon Sample.joe 3 Sample.world_ahead) in
  setHours0 Sample.noon = setHours0 Sample.evening
  /\ (exists r, In r (featureUsage (db w))
                /\ usage_key r = (id Sample.joe, setHours0 Sample.noon))
  /\ db (snd (spendCredits Sample.evening Sample.joe (- 9)
                (snd (spendCredits Sample.noon Sample.joe 9 w))))
     = db w.
Proof.
  cbv zeta.
  assert (H : exists r,
             In r (featureUsage
                     (db (snd (spendCredits Sample.noon Sample.joe 3
                                 Sample.world_ahead))))
             /\ usage_key r = (id Sample.joe, setHours0 Sample.noon)).
  { exists (mkUsage "u2" Sample.today 3). split; [right; now left|reflexivity]. }
  split; [reflexivity|]. split; [exact H|].
  exact (proj1 (spending_back_restores Sample.noon Sample.evening Sample.joe 9
                  (snd (spendCredits Sample.noon Sample.joe 3
                          Sample.world_ahead)) eq_refl) H).
Defined.

Section UpsertElsewhere.

Variables (A : Type) (where_ f : A -> bool) (update : A -> A) (create : A).
Hypothesis f_key : forall r, where_ r = true -> f r = false.
Hypothesis f_update : forall r, where_ r = true -> f (update r) = false.
Hypothesis f_create : f create = false.

(** A selection that takes no row under the key sees no upsert. *)
Lemma filter_upsert_elsewhere (t : list A) :
  filter f (Prisma.upsert where_ update create t) = filter f t.
Proof.
  induction t as [|r t IH]; simpl; [now rewrite f_create|].
  destruct (where_ r) eqn:Hr; simpl.
  - now rewrite (f_key r Hr), (f_update r Hr).
  - now rewrite IH.
Qed.

Lemma find_upsert_elsewhere (t : list A) :
  find f (Prisma.upsert where_ update create t) = find f t.
Proof.
  induction t as [|r t IH]; simpl; [now rewrite f_create|].
  destruct (where_ r) eqn:Hr; simpl.
  - now rewrite (f_key r Hr), (f_update r Hr).
  - now rewrite IH.
Qed.

End UpsertElsewhere.

Lemma upsert_length {A : Type} (where_ : A -> bool) (update : A -> A)
    (create : A) (t : list A) :
  (length t <= length (Prisma.upsert where_ update create t)
   <= S (length t))%nat.
Proof.
  induction t as [|r t IH]; simpl; [lia|].
  destruct (where_ r); simpl; lia.
Qed.

(** X11. [spendCredits] touches one row.  The rows of other users and of
    other days are after the call what they were, in their order, and the
    table has as many rows as before or one more. *)
Theorem spending_touches_one_row
    {P : Type} (now : JsDate) (user : User) (amount : Z) (w : World P) :
  let rows := featureUsage (db w) in
  let rows' := featureUsage (db (snd (spendCredits now user amount w))) in
  let other r :=
    negb ((userId r =? id user)%string && date_eqb (date r) (setHours0 now)) in
  filter other rows' = filter other rows
  /\ (length rows <= length rows' <= S (length rows))%nat.
Proof.
  cbv zeta. rewrite spendCredits_db. simpl. split.
  - apply filter_upsert_elsewhere.
    + intros r Hr. unfold where_userId_date in Hr. now rewrite Hr.
    + intros r Hr. unfold where_userId_date in Hr. simpl. now rewrite Hr.
    + simpl. rewrite String.eqb_refl.
      now rewrite (proj2 (date_eqb_eq _ _) eq_refl).
  - apply upsert_length.
Qed.



Lemma date_gte_spec (a b : JsDate) :
  date_gte a b = true <->
  year b < year a
  \/ (year a = year b
      /\ (month b < month a
          \/ (month a = month b
              /\ (day b < day a
                  \/ (day a = day b /\ msOfDay b <= msOfDay a))))).
Proof.
  unfold date_gte.
  destruct (Z.eqb_spec (year a) (year b));
    [destruct (Z.eqb_spec (month a) (month b));
       [destruct (Z.eqb_spec (day a) (day b))|]|];
    rewrite ?Z.ltb_lt, ?Z.leb_le; lia.
Qed.

Lemma date_gte_trans (a b c : JsDate) :
  date_gte a b = true -> date_gte b c = true -> date_gte a c = true.
Proof. rewrite !date_gte_spec. lia. Qed.

Lemma clicks_bounds (rows : list FeatureUsage) :
  (forall r, In r rows -> 0 <= buttonClicks r) ->
  0 <= clicks rows
  /\ forall r, In r rows -> buttonClicks r <= clicks rows.
Proof.
  unfold clicks. induction rows as [|x rows IH]; intros H; simpl.
  - split; [lia|intros r []].
  - destruct IH as [IH0 IHr]; [intros r Hr; apply H; now right|].
    pose proof (H x (or_introl eq_refl)).
    split; [lia|]. intros r [<-|Hr]; [lia|]. specialize (IHr r Hr). lia.
Qed.

(** X13. When the user's counters are not negative (and the day of the month
    is 1 or more, as in every date), today's figure of [getUsageForUser] is
    between 0 and the figure for the month. *)
Theorem today_is_within_the_month
    {P : Type} {DBMS : Engine} (now : JsDate) (user : User) (w : World P) :
  1 <= day now ->
  (forall r, In r (featureUsage (db w)) -> userId r = id user ->
             0 <= buttonClicks r) ->
  exists usage,
    fst (getUsageForUser now user w) = Ok usage
    /\ 0 <= totalButtonClicksToday usage <= totalButtonClicksThisMonth usage.
Proof.
  intros Hday Hpos. rewrite getUsageForUser_run. cbv zeta.
  eexists. split; [reflexivity|].
  cbn [totalButtonClicksToday totalButtonClicksThisMonth].
  set (rows := featureUsage (db w)) in *.
  set (mine := filter (where_userId_since (id user)
                         (setHours0 (setDate1 now))) rows).
  destruct (clicks_bounds mine) as [Hsum Hone].
  { intros r Hr. apply filter_In in Hr. destruct Hr as [Hin Hr].
    apply Hpos; [exact Hin|]. unfold where_userId_since in Hr.
    apply andb_prop in Hr. now apply String.eqb_eq. }
  destruct (Prisma.findFirst (where_userId_since (id user) (setHours0 now))
              rows)
    as [r|] eqn:E; simpl; [|lia].
  apply findFirst_some in E. destruct E as [Hin Hr].
  unfold where_userId_since in Hr. apply andb_prop in Hr.
  destruct Hr as [Hu Hd].
  split; [apply Hpos; [exact Hin|now apply String.eqb_eq]|].
  apply Hone. apply filter_In. split; [exact Hin|].
  unfold where_userId_since. rewrite Hu. simpl.
  exact (date_gte_trans _ _ _ Hd (month_starts_before_today now Hday)).
Qed.

Lemma today_is_within_the_month_witness :
  let w :=
    mkWorld (mkDb [mkUsage "u2" (mkDate 2024 5 3 0) 10;
                   mkUsage "u2" Sample.today 4;
                   mkUsage "u2" (mkDate 2024 4 30 0) 100] [] [] [])
            Sample.account [] in
  1 <= day Sample.evening
  /\ exists usage,
       fst (getUsageForUser (DBMS:=Engines.oldest_first)
              Sample.evening Sample.joe w) = Ok usage
       /\ 0 <= totalButtonClicksToday usage
            <= totalButtonClicksThisMonth usage.
Proof.
  cbv zeta. split; [simpl; lia|].
  apply (today_is_within_the_month (DBMS:=Engines.oldest_first));
    [simpl; lia|].
  simpl. intros r [<-|[<-|[<-|[]]]] _; simpl; lia.
Defined.

(** ** Subscriptions, further *)

(** The run of [getSubscriptionByUserId] for a user in the session. *)
Lemma getSubscriptionByUserId_run
    {P : Type} {SDK : Provider P} {DBMS : Engine} (env : Env) (user : User)
    (w : World P) :
  let subscription :=
    Prisma.findFirst (fun s => (sub_userId s =? id user)%string)
      (lemonSqueezySubscription (db w)) in
  let wanted := option_map variantId subscription in
  let found := Prisma.findFirst (where_variant_opt wanted) (plan (db w)) in
  let looked := [Setup (LEMON_SQUEEZY_API_KEY env);
                 Store (SubscriptionFindFirst (id user))] in
  let without :=
    (Ok (mkSubscriptionInfo subscription None found),
     mkWorld (db w) (lemon w)
       (trace w ++ looked ++ [Store (PlanFindFirst wanted)])) in
  getSubscriptionByUserId env (Some user) w
  = match subscription with
    | Some s =>
        if truthy (Some (variantId s)) then
          (Ok (mkSubscriptionInfo subscription
                 (Some (fst (getVariant (variantId s) (lemon w)))) found),
           mkWorld (db w) (snd (getVariant (variantId s) (lemon w)))
             (trace w ++ looked
              ++ [Api (GetVariant (variantId s));
                  Store (PlanFindFirst wanted)]))
        else without
    | None => without
    end.
Proof.
  intros subscription wanted found looked without.
  subst without looked found wanted.
  cbv beta iota zeta
      delta [getSubscriptionByUserId sdkGetVariant setupLemonSqueezy bind emit
             query api require ret throw].
  cbn [db lemon trace fst snd]. fold subscription.
  destruct subscription as [s|]; cbv beta iota.
  - destruct (truthy (Some (variantId s))) eqn:Hv; cbv beta iota;
      rewrite ?Hv; cbv beta iota; cbn [db lemon trace fst snd].
    + destruct (getVariant (variantId s) (lemon w)) as [r p].
      cbn [db lemon trace fst snd]. rewrite <- !app_assoc. reflexivity.
    + rewrite <- !app_assoc. reflexivity.
  - cbn [db lemon trace fst snd]. rewrite <- !app_assoc. reflexivity.
Qed.

(** X14. [getSubscriptionByUserId] without a user in the session throws
    "User not found in session" having touched neither store nor provider.
    For a user with a subscription row it returns one of the user's rows:
    the one there is when there is one, the database's choice when there are
    several.  When the row names a variant the provider is asked for that
    variant once and the answer is returned as it came; when its variant id
    is empty no provider call is made.  The plan returned is a plan row with
    that variant id, or none when no plan row has it. *)
Theorem subscription_lookup
    {P : Type} {SDK : Provider P} {DBMS : Engine} (env : Env) (w : World P) :
  (fst (getSubscriptionByUserId env None w) = Throw "User not found in session"
   /\ performed (getSubscriptionByUserId env None) w
      = [Setup (LEMON_SQUEEZY_API_KEY env)]
   /\ lemon (snd (getSubscriptionByUserId env None w)) = lemon w)
  /\ forall user,
       let subscriptions := lemonSqueezySubscription (db w) in
       let mine x := (sub_userId x =? id user)%string in
       let m := getSubscriptionByUserId env (Some user) in
       (exists x, In x subscriptions /\ sub_userId x = id user) ->
       exists s variant found,
         fst (m w) = Ok (mkSubscriptionInfo (Some s) variant found)
         /\ In s subscriptions
         /\ sub_userId s = id user
         /\ (forall only, filter mine subscriptions = [only] -> s = only)
         /\ (variantId s <> "" ->
             variant = Some (fst (getVariant (variantId s) (lemon w)))
             /\ filter is_api (performed m w)
                = [Api (GetVariant (variantId s))])
         /\ (variantId s = "" ->
             variant = None /\ filter is_api (performed m w) = [])
         /\ (forall p, found = Some p ->
               In p (plan (db w))
               /\ lemonSqueezyVariantId p = variantId s)
         /\ (found = None ->
             forall p, In p (plan (db w)) ->
                       lemonSqueezyVariantId p <> variantId s).
Proof.
  split.
  - split; [reflexivity|]. split; [|reflexivity].
    apply performed_app. reflexivity.
  - intros user subscriptions mine m (x & Hx & Hmine).
    pose proof (getSubscriptionByUserId_run env user w) as E.
    cbv zeta in E. fold m subscriptions mine in E.
    destruct (Prisma.findFirst mine subscriptions) as [s|] eqn:Hs.
    2:{ pose proof (findFirst_None _ _ Hs x Hx) as Hno. unfold mine in Hno.
        rewrite Hmine, String.eqb_refl in Hno. discriminate. }
    destruct (findFirst_some _ _ _ Hs) as [Hin Hu].
    apply String.eqb_eq in Hu.
    cbn [option_map where_variant_opt] in E.
    set (found := Prisma.findFirst (where_variant (variantId s))
                    (plan (db w))) in *.
    assert (Hfound : (forall p, found = Some p ->
                        In p (plan (db w))
                        /\ lemonSqueezyVariantId p = variantId s)
                     /\ (found = None ->
                         forall p, In p (plan (db w)) ->
                                   lemonSqueezyVariantId p <> variantId s)).
    { split.
      - intros p Hp. destruct (findFirst_some _ _ _ Hp) as [Hp1 Hp2].
        split; [exact Hp1|]. now apply String.eqb_eq in Hp2.
      - intros Hnone p Hp Hid.
        pose proof (findFirst_None _ _ Hnone p Hp) as Hw.
        unfold where_variant in Hw. rewrite Hid, String.eqb_refl in Hw.
        discriminate. }
    assert (Honly : forall only, filter mine subscriptions = [only] ->
                                 s = only).
    { intros only Hf. rewrite (findFirst_only _ _ _ Hf) in Hs. congruence. }
    destruct (truthy (Some (variantId s))) eqn:Hv.
    + exists s, (Some (fst (getVariant (variantId s) (lemon w)))), found.
      split; [rewrite E; reflexivity|].
      split; [exact Hin|]. split; [exact Hu|]. split; [exact Honly|].
      split; [|split; [|exact Hfound]].
      * intros _. split; [reflexivity|].
        erewrite performed_app by (rewrite E; reflexivity). reflexivity.
      * intros Hempty. rewrite Hempty in Hv. discriminate.
    + exists s, None, found.
      split; [rewrite E; reflexivity|].
      split; [exact Hin|]. split; [exact Hu|]. split; [exact Honly|].
      split; [|split; [|exact Hfound]].
      * intros Hne. apply truthy_Some in Hne. congruence.
      * intros _. split; [reflexivity|].
        erewrite performed_app by (rewrite E; reflexivity). reflexivity.
Qed.

Lemma subscription_lookup_witness :
  let m := getSubscriptionByUserId (DBMS:=Engines.newest_first)
             Sample.env (Some Sample.admin) in
  (exists x, In x (lemonSqueezySubscription (db Sample.world_subscribed))
             /\ sub_userId x = id Sample.admin)
  /\ exists found,
       fst (m Sample.world_subscribed)
       = Ok (mkSubscriptionInfo (Some (mkSubscription "u1" "v1"))
               (Some (fst (getVariant "v1" Sample.account))) found)
       /\ filter is_api (performed m Sample.world_subscribed)
          = [Api (GetVariant "v1")].
Proof.
  cbv zeta.
  assert (H : exists x,
             In x (lemonSqueezySubscription (db Sample.world_subscribed))
             /\ sub_userId x = id Sample.admin).
  { exists (mkSubscription "u1" "v1"). split; [now left|reflexivity]. }
  split; [exact H|].
  destruct (proj2 (subscription_lookup (DBMS:=Engines.newest_first)
                     Sample.env Sample.world_subscribed)
              Sample.admin H)
    as (s & variant & found & Hok & _ & _ & Honly & Hnamed & _).
  pose proof (Honly (mkSubscription "u1" "v1") eq_refl) as Hs. subst s.
  destruct Hnamed as [Hvariant Hcalls]; [discriminate|]. subst variant.
  exists found. split; [exact Hok|exact Hcalls].
Defined.

(** ** Products *)

(** X15. [getProductById] never touches the store.  With an empty product
    id the SDK throws for the missing parameter before any request.  With any
    other product id the procedure does not throw: it asks the provider for
    the product and for the variants of that product, in this order, and
    returns the product document as it came.  With [hideDefaultVariant] true
    it returns the variants whose status is not "pending", in the provider's
    order; with the option false or absent it returns all of them. *)
Theorem product_with_its_variants
    {P : Type} {SDK : Provider P} (env : Env) (productId : string)
    (hide : option bool) (w : World P) :
  let m := getProductById env productId hide in
  let product := getProduct productId (lemon w) in
  let listed := fst (listVariants (Some productId) (snd product)) in
  db (snd (m w)) = db w
  /\ (productId = "" ->
      fst (m w) = Throw "Please provide the required parameter: productId."
      /\ filter is_api (performed m w) = [])
  /\ (productId <> "" ->
      exists info,
        fst (m w) = Ok info
        /\ filter is_api (performed m w)
           = [Api (GetProduct productId); Api (ListVariants (Some productId))]
        /\ pi_product info = data (fst product)
        /\ forall vs,
             payload listed = Some vs ->
             pi_variants info
             = Some (if match hide with Some true => true | _ => false end
                     then filter (fun v => negb (status v =? "pending")%string)
                            vs
                     else vs)).
Proof.
  cbv zeta.
  pose proof (getProductById_run env productId hide w) as E.
  split; [|split].
  - rewrite E. destruct (truthy (Some productId)); reflexivity.
  - intros ->. change (truthy (Some "")) with false in E.
    split; [rewrite E; reflexivity|].
    erewrite performed_app by (rewrite E; reflexivity). reflexivity.
  - intros Hid. rewrite (proj2 (truthy_Some productId) Hid) in E.
    eexists. split; [rewrite E; reflexivity|]. split; [|split].
    + erewrite performed_app by (rewrite E; reflexivity). reflexivity.
    + reflexivity.
    + intros vs Hvs. cbn [pi_variants]. rewrite Hvs. simpl. f_equal.
      destruct hide as [[|]|]; simpl; try reflexivity.
      * clear. induction vs as [|v vs IH]; simpl; [reflexivity|].
        now rewrite IH.
      * clear. induction vs as [|v vs IH]; simpl; [reflexivity|].
        now rewrite IH.
Qed.

Lemma product_with_its_variants_witness :
  "7" <> ""
  /\ payload (fst (listVariants (Some "7") Sample.account))
     = Some [Sample.pro; Sample.basic]
  /\ (exists info,
        fst (getProductById Sample.env "7" (Some true) Sample.world) = Ok info
        /\ pi_variants info = Some [Sample.pro]).
Proof.
  split; [discriminate|]. split; [reflexivity|].
  destruct (proj2 (proj2 (product_with_its_variants Sample.env "7" (Some true)
                            Sample.world)))
    as (info & Hok & _ & _ & Hvs); [discriminate|].
  exists info. split; [exact Hok|].
  exact (Hvs [Sample.pro; Sample.basic] eq_refl).
Defined.

Lemma has_plan_iff (variant : string) (plans : list Plan) :
  existsb (String.eqb variant) (map lemonSqueezyVariantId plans) = true <->
  exists row, In row plans /\ lemonSqueezyVariantId row = variant.
Proof.
  rewrite existsb_exists. split.
  - intros (k & Hk & Heq). apply String.eqb_eq in Heq. subst k.
    apply in_map_iff in Hk. destruct Hk as (row & Hrow & Hin). eauto.
  - intros (row & Hin & Hrow). exists variant. split.
    + rewrite <- Hrow. now apply in_map.
    + apply String.eqb_refl.
Qed.

(** X16. [getProductsFromLemonSqueezy] never throws and writes nothing.  It
    returns undefined when the product listing carries no data.  Otherwise it
    returns the listed products, in order, each with the listed variants
    whose [product_id], printed as a string, is the product's id (or with no
    variants at all when the variant listing carries no data); and each
    variant is flagged [hasCorrespondingPlanInDB] exactly when a plan row has
    its id. *)
Theorem products_with_plan_flags
    {P : Type} {SDK : Provider P} (env : Env) (w : World P) :
  let products := listProducts (lemon w) in
  let variants := fst (listVariants None (snd products)) in
  exists out,
    fst (getProductsFromLemonSqueezy env w) = Ok out
    /\ (payload (fst products) = None -> out = None)
    /\ forall ps,
         payload (fst products) = Some ps ->
         exists entries,
           out = Some entries
           /\ map fst entries = ps
           /\ forall product attached,
                In (product, attached) entries ->
                match payload variants with
                | None => attached = None
                | Some vs =>
                    exists flagged,
                      attached = Some flagged
                      /\ map fst flagged
                         = filter (fun v => (String_ (product_id v)
                                             =? p_id product)%string) vs
                      /\ forall v flag,
                           In (v, flag) flagged ->
                           (flag = true <->
                            exists row,
                              In row (plan (db w))
                              /\ lemonSqueezyVariantId row = v_id v)
                end.
Proof.
  cbv zeta.
  unfold getProductsFromLemonSqueezy, setupLemonSqueezy, bind, emit, api,
    query, ret.
  cbn [db lemon trace].
  destruct (listProducts (lemon w)) as [r1 p1]. cbn [fst snd db lemon trace].
  destruct (listVariants None p1) as [r2 p2]. cbn [fst snd db lemon trace].
  eexists. split; [reflexivity|]. split.
  - intros H. now rewrite H.
  - intros ps Hps. rewrite Hps. cbn [option_map].
    eexists. split; [reflexivity|]. split.
    + rewrite map_map. cbn [fst]. apply map_id.
    + intros product attached Hin. apply in_map_iff in Hin.
      destruct Hin as (p0 & Heq & _). injection Heq as -> <-.
      destruct (payload r2) as [vs|]; cbn [option_map]; [|reflexivity].
      eexists. split; [reflexivity|]. split.
      * rewrite map_map. cbn [fst]. apply map_id.
      * intros v flag Hv. apply in_map_iff in Hv.
        destruct Hv as (v0 & Heq & _). injection Heq as -> <-.
        apply has_plan_iff.
Qed.

Lemma products_with_plan_flags_witness :
  payload (fst (listProducts (lemon Sample.world_with_plan)))
  = Some [mkProduct "7" "App"]
  /\ exists entries,
       fst (getProductsFromLemonSqueezy Sample.env Sample.world_with_plan)
       = Ok (Some entries)
       /\ map fst entries = [mkProduct "7" "App"].
Proof.
  split; [reflexivity|].
  destruct (products_with_plan_flags Sample.env Sample.world_with_plan)
    as (out & Hok & _ & Hsome).
  destruct (Hsome [mkProduct "7" "App"] eq_refl) as (entries & -> & Hps & _).
  exists entries. split; [exact Hok|exact Hps].
Defined.

(** ** Errors *)

Section ThrowsIn.

Context {P : Type} {SDK : Provider P}.
Variable l : list string.

Lemma throws_in_ret {A : Type} (a : A) : throws_in (P:=P) l (ret a).
Proof. intros w msg H. discriminate. Qed.

Lemma throws_in_throw {A : Type} (msg : string) :
  In msg l -> throws_in (P:=P) (A:=A) l (throw msg).
Proof. intros Hin w msg' H. injection H as <-. exact Hin. Qed.

Lemma throws_in_require (x : option string) (msg : string) :
  In msg l -> throws_in (P:=P) l (require x msg).
Proof.
  intros Hin w msg' H. unfold require in H.
  destruct x; [destruct (truthy _)|]; try discriminate;
    injection H as <-; exact Hin.
Qed.

Lemma throws_in_emit (e : Event) : throws_in (P:=P) l (emit e).
Proof. intros w msg H. discriminate. Qed.

Lemma throws_in_api {A : Type} (c : ApiCall) (f : P -> Response A * P) :
  throws_in l (api c f).
Proof.
  intros w msg H. unfold api in H. destruct (f (lemon w)). discriminate.
Qed.

Lemma throws_in_query {A : Type} (q : Query) (f : Db -> A) :
  throws_in (P:=P) l (query q f).
Proof. intros w msg H. discriminate. Qed.

Lemma throws_in_mutate {A : Type} (q : Query) (f : Db -> A * Db) :
  throws_in (P:=P) l (mutate q f).
Proof.
  intros w msg H. unfold mutate in H. destruct (f (db w)). discriminate.
Qed.

Lemma throws_in_bind {A B : Type} (m : M P A) (k : A -> M P B) :
  throws_in l m -> (forall a, throws_in l (k a)) -> throws_in l (bind m k).
Proof.
  intros Hm Hk w msg H. unfold bind in H.
  destruct (m w) as [[a|msg'] w1] eqn:E.
  - exact (Hk a w1 msg H).
  - apply (Hm w). rewrite E. simpl in *. injection H as <-. reflexivity.
Qed.

End ThrowsIn.

Create HintDb throws.
#[export] Hint Resolve throws_in_ret throws_in_emit throws_in_api
  throws_in_query throws_in_mutate : throws.
#[export] Hint Extern 1 (In _ _) => simpl; tauto : throws.
#[export] Hint Extern 2 (throws_in _ (throw _)) =>
  apply throws_in_throw : throws.
#[export] Hint Extern 2 (throws_in _ (require _ _)) =>
  apply throws_in_require : throws.

Ltac throws :=
  repeat first
    [ solve [auto with throws]
    | apply throws_in_bind; [|intros ?]
    | match goal with
      | |- throws_in _ (match ?x with _ => _ end) => destruct x
      | |- throws_in _ (let _ := _ in _) => cbv zeta
      end ].

(** X17. The errors of the router.  Whatever a procedure throws is one of
    its own messages or the message of a parameter check of the SDK:
    "User not found in session" for [getSubscriptionByUserId], whose call of
    [getVariant] is guarded; the SDK's missing-parameter message for the
    product id for [getProductById]; the missing-store-id message or the
    SDK's message for the variant id for [createCheckoutForVariant]; the
    authorization error, the missing-webhook-URL message or the SDK's message
    for the store id for [createLsWebhook]; the missing-webhook-URL message of
    [hasWebhook] for [getWebhook]; the authorization error, the missing-data
    error or the store's unique-key refusal for
    [createPlansFromLemonSqueezyVariants].  The other five procedures never
    throw. *)
Theorem router_errors
    {P : Type} {SDK : Provider P} {DBMS : Engine} (env : Env) (now : JsDate)
    (r : Request) (w : World P) (msg : string) :
  fst (paymentManagementRouter env now r w) = Throw msg -> In msg (errors r).
Proof.
  revert w msg. change (throws_in (errors r) (paymentManagementRouter env now r)).
  destruct r; unfold paymentManagementRouter, answer, errors.
  - apply throws_in_bind; [|intros; apply throws_in_ret].
    destruct session as [user|].
    + intros w msg H. rewrite getSubscriptionByUserId_run in H.
      cbv zeta in H.
      destruct (Prisma.findFirst _ (lemonSqueezySubscription (db w)))
        as [s|]; [destruct (truthy (Some (variantId s)))|]; discriminate.
    + unfold getSubscriptionByUserId, setupLemonSqueezy. throws.
  - unfold getProductById, sdkGetProduct, setupLemonSqueezy. throws.
  - apply throws_in_bind; [|intros; apply throws_in_ret].
    intros w msg H.
    pose proof (createCheckoutForVariant_run env session variant embed0 w)
      as E.
    cbv zeta in E.
    destruct (LEMON_SQUEEZY_STORE_ID env) as [storeId|];
      [destruct (truthy (Some storeId));
         [destruct (truthy (Some variant))|]|];
      rewrite E in H; try discriminate; injection H as <-;
      [right; now left|now left|now left].
  - apply throws_in_bind; [|intros; apply throws_in_ret].
    intros w msg H.
    destruct (String.eqb_spec (role user) "SUPER_ADMIN") as [Hrole|Hrole].
    2:{ rewrite (proj1 (unauthorized_role_stops env user w Hrole)) in H.
        injection H as <-. now left. }
    destruct (LEMON_SQUEEZY_WEBHOOK_URL env) as [u|] eqn:Hurl.
    2:{ unfold createLsWebhook, bind, emit, require in H.
        rewrite Hrole, Hurl in H. injection H as <-. right. now left. }
    destruct (String.eqb_spec u "") as [Hu|Hu].
    { unfold createLsWebhook, bind, emit, require in H.
      rewrite Hrole, Hurl, Hu in H. injection H as <-. right. now left. }
    rewrite (createLsWebhook_run env user u w Hrole Hurl Hu) in H.
    cbv zeta in H.
    destruct (found env u (lemon w)); [discriminate|].
    destruct (LEMON_SQUEEZY_STORE_ID env) as [store|];
      [destruct (truthy (Some store)); [discriminate|]|];
      injection H as <-; right; right; now left.
  - unfold getWebhook, hasWebhook, setupLemonSqueezy. throws.
  - apply throws_in_bind; [|intros; apply throws_in_ret].
    intros w msg H.
    destruct (createPlans_cases env user schedule w)
      as [[_ E]|[(_ & _ & E & _)|(_ & vs & rs & _ & Hrs & E & _)]];
      cbv zeta in E; rewrite E in H.
    + injection H as <-. now left.
    + injection H as <-. right. now left.
    + pose proof (all_settled vs rs Hrs) as Hall. rewrite H in Hall.
      subst msg. right. right. now left.
  - unfold getProductsFromLemonSqueezy, setupLemonSqueezy. throws.
  - unfold spendCredits. throws.
  - unfold getUsageForUser. throws.
  - unfold getOneTimePurchasesForUser. throws.
  - unfold getAllVariants, setupLemonSqueezy. throws.
Qed.

Lemma router_errors_witness :
  fst (paymentManagementRouter (DBMS:=Engines.oldest_first)
         Sample.env_no_store Sample.noon
         (CreateCheckoutForVariant None "v1" None) Sample.world)
  = Throw "Missing required LEMON_SQUEEZY_STORE_ID env variable. Please, set it in your .env file."
  /\ In "Missing required LEMON_SQUEEZY_STORE_ID env variable. Please, set it in your .env file."
        (errors (CreateCheckoutForVariant None "v1" None)).
Proof.
  split; [reflexivity|].
  apply (router_errors (DBMS:=Engines.oldest_first)
           Sample.env_no_store Sample.noon
           (CreateCheckoutForVariant None "v1" None) Sample.world).
  reflexivity.
Defined.

(** ** Days and months *)

Lemma filter_none {A : Type} (f : A -> bool) (l : list A) :
  (forall x, In x l -> f x = false) -> filter f l = [].
Proof.
  induction l as [|a l IH]; intros H; simpl; [reflexivity|].
  rewrite (H a (or_introl eq_refl)). apply IH.
  intros x Hx. apply H. now right.
Qed.

Lemma date_gte_false (a b : JsDate) :
  date_gte a b = false <-> ~ (date_gte a b = true).
Proof. destruct (date_gte a b); split; congruence. Qed.

(** After spending [a] on one day and [b] on a later day, a user who had no
    usage rows has two, one for each day. *)
Lemma spend_on_two_days {P : Type} (now1 now2 : JsDate) (user : User)
    (a b : Z) (w : World P) :
  (forall r, In r (featureUsage (db w)) -> userId r <> id user) ->
  setHours0 now1 <> setHours0 now2 ->
  featureUsage
    (db (snd (spendCredits now2 user b (snd (spendCredits now1 user a w)))))
  = (featureUsage (db w)
     ++ [mkUsage (id user) (setHours0 now1) a;
         mkUsage (id user) (setHours0 now2) b])%list.
Proof.
  intros Hnone Hdays. rewrite !spendCredits_db. simpl.
  assert (Hkey : forall d r, In r (featureUsage (db w)) ->
                             where_userId_date (id user) d r = false).
  { intros d r Hr. unfold where_userId_date.
    apply Hnone in Hr. apply String.eqb_neq in Hr. now rewrite Hr. }
  rewrite (upsert_absent _ _ (increment a) _ (featureUsage (db w)))
    by (apply Hkey).
  rewrite upsert_absent; [now rewrite <- app_assoc|].
  intros r Hr. apply in_app_or in Hr. destruct Hr as [Hr|[<-|[]]].
  - now apply Hkey.
  - unfold where_userId_date. simpl.
    destruct (date_eqb (setHours0 now1) (setHours0 now2)) eqn:E.
    + apply date_eqb_eq in E. contradiction.
    + apply andb_false_r.
Qed.

(** X18. Days add up within a month and not across months.  Let a user
    without usage rows spend [a] on one day and [b] on a later day, and ask
    for the usage on that later day.  Today's figure is [b].  The figure for
    the month is [a + b] when both days are in one month, and [b] when the
    first day is in an earlier month. *)
Theorem usage_over_days
    {P : Type} {DBMS : Engine} (now1 now2 : JsDate) (user : User) (a b : Z)
    (w : World P) :
  (forall r, In r (featureUsage (db w)) -> userId r <> id user) ->
  let w' :=
    snd (spendCredits now2 user b (snd (spendCredits now1 user a w))) in
  (year now1 = year now2 -> month now1 = month now2 ->
   1 <= day now1 < day now2 ->
   fst (getUsageForUser now2 user w') = Ok (mkUsageTotals b (a + b)))
  /\ (year now1 < year now2
      \/ (year now1 = year now2 /\ month now1 < month now2) ->
      1 <= day now2 ->
      fst (getUsageForUser now2 user w') = Ok (mkUsageTotals b b)).
Proof.
  intros Hnone w'.
  assert (Hsince : forall d r, In r (featureUsage (db w)) ->
                               where_userId_since (id user) d r = false).
  { intros d r Hr. unfold where_userId_since.
    apply Hnone in Hr. apply String.eqb_neq in Hr. now rewrite Hr. }
  assert (Hrun : forall (today month : bool),
             1 <= day now2 ->
             setHours0 now1 <> setHours0 now2 ->
             date_gte (setHours0 now1) (setHours0 now2) = false ->
             date_gte (setHours0 now1) (setHours0 (setDate1 now2)) = month ->
             fst (getUsageForUser now2 user w')
             = Ok (mkUsageTotals b (if month then a + b else b))).
  { intros _ month Hday2 Hdays Hlater Hmonth. unfold w'.
    rewrite getUsageForUser_run. cbv zeta. cbn [fst].
    rewrite (spend_on_two_days now1 now2 user a b w Hnone Hdays).
    assert (Htoday : filter (where_userId_since (id user) (setHours0 now2))
                       (featureUsage (db w)
                        ++ [mkUsage (id user) (setHours0 now1) a;
                            mkUsage (id user) (setHours0 now2) b])
                     = [mkUsage (id user) (setHours0 now2) b]).
    { rewrite filter_app, (filter_none _ _ (Hsince _)).
      cbn [filter app]. unfold where_userId_since. cbn [userId date].
      rewrite String.eqb_refl, Hlater, date_gte_refl. reflexivity. }
    rewrite (findFirst_only _ _ _ Htoday).
    rewrite filter_app, (filter_none _ _ (Hsince _)).
    cbn [filter app]. unfold where_userId_since. cbn [userId date].
    rewrite String.eqb_refl, Hmonth. cbn [andb].
    rewrite (month_starts_before_today now2 Hday2).
    destruct month; unfold clicks; simpl; do 2 f_equal; lia. }
  split.
  - intros Hy Hm Hd.
    apply (Hrun true true).
    + lia.
    + intros Heq. apply (f_equal day) in Heq. simpl in Heq. lia.
    + apply date_gte_false. rewrite date_gte_spec. simpl. lia.
    + apply date_gte_spec. simpl. lia.
  - intros Hearlier Hday2.
    apply (Hrun true false).
    + exact Hday2.
    + intros Heq. pose proof (f_equal year Heq). pose proof (f_equal month Heq).
      simpl in *. lia.
    + apply date_gte_false. rewrite date_gte_spec. simpl. lia.
    + apply date_gte_false. rewrite date_gte_spec. simpl. lia.
Qed.

Lemma usage_over_days_witness :
  let earlier := mkDate 2024 5 3 36000000 in
  let w' :=
    snd (spendCredits Sample.evening Sample.joe 4
           (snd (spendCredits earlier Sample.joe 10 Sample.world))) in
  (forall r, In r (featureUsage (db Sample.world)) -> userId r <> id Sample.joe)
  /\ 1 <= day earlier < day Sample.evening
  /\ fst (getUsageForUser (DBMS:=Engines.oldest_first)
            Sample.evening Sample.joe w')
     = Ok (mkUsageTotals 4 14).
Proof.
  cbv zeta.
  assert (H : forall r, In r (featureUsage (db Sample.world)) ->
                        userId r <> id Sample.joe) by (intros r []).
  split; [exact H|]. split; [simpl; lia|].
  apply (proj1 (usage_over_days (DBMS:=Engines.oldest_first)
                  (mkDate 2024 5 3 36000000) Sample.evening
                  Sample.joe 10 4 Sample.world H)).
  - reflexivity.
  - reflexivity.
  - simpl. lia.
Defined.

(** Where the guards of the configuration bite. *)
Lemma missing_configuration_is_reported_witness :
  let env := mkEnv (Some "key") None None None None None in
  truthy (LEMON_SQUEEZY_WEBHOOK_URL env) = false
  /\ throws (getWebhook env) Sample.world
  /\ existsb is_api (performed (getWebhook env) Sample.world) = false
  /\ truthy (LEMON_SQUEEZY_STORE_ID env) = false
  /\ throws (createCheckoutForVariant env (Some Sample.joe) "v1" None)
       Sample.world.
Proof.
  cbv zeta.
  destruct (missing_configuration_is_reported
              (mkEnv (Some "key") None None None None None) Sample.world)
    as [Hurl Hstore].
  destruct (Hurl eq_refl) as (_ & [Hw Hq] & _).
  destruct (Hstore eq_refl (Some Sample.joe) "v1" None) as [Hc _].
  repeat split; assumption.
Defined.
